(** * Control plane of the GStreamer compositor (src/app.py)

    A shallow embedding of [build_pipeline], [start_gst], [stop_gst] and of
    the Flask handlers [start], [stop] and [update], followed by the
    properties of the pipeline text and of the worker life cycle.

    Python values that reach the code from a request body are kept
    dynamically typed ([pyval]); the feed catalogue and the transport
    settings come from the configuration file and are typed.  The module
    globals [GST_PROCESS] and the log are one [world]; what the operating
    system answers to [Popen], [terminate] and [wait], and what the
    configuration file holds, is an [Env] the functions are run against. *)

From Stdlib Require Import Floats.SpecFloat.
From stdpp Require Import gmap strings list sorting pretty.

(** ** Python values, exceptions and results *)

Set Warnings "-register-all".

Inductive pyval : Type :=
  | PNone
  | PBool (b : bool)
  | PInt (z : Z)
  | PFloat (f : spec_float)
  | PStr (s : string)
  | PList (l : list pyval)
  | PDict (d : list (string * pyval)).

Inductive exn : Type :=
  | ValueError (msg : string)
  | TypeError (msg : string)
  | KeyError (msg : string)
  | AttributeError (msg : string)
  | OSError (msg : string)
  | TimeoutExpired (msg : string).

(** [str(e)] as the f-strings of the log calls format it. *)
Definition str_exn (e : exn) : string :=
  match e with
  | ValueError m | TypeError m | KeyError m
  | AttributeError m | OSError m | TimeoutExpired m => m
  end.

Inductive result (A : Type) : Type :=
  | Ok (a : A)
  | Raise (e : exn).
Arguments Ok {A} a.
Arguments Raise {A} e.

Global Instance result_ret : MRet result := λ A a, Ok a.

Global Instance result_bind : MBind result := λ A B k r,
  match r with
  | Ok a => k a
  | Raise e => Raise e
  end.

(** [bool(v)], the truth value [not v] negates. *)
Definition truthy (v : pyval) : bool :=
  match v with
  | PNone => false
  | PBool b => b
  | PInt z => negb (Z.eqb z 0)
  | PFloat (S754_zero _) => false
  | PFloat _ => true
  | PStr s => negb (String.eqb s "")
  | PList l => negb (bool_decide (length l = 0))
  | PDict d => negb (bool_decide (length d = 0))
  end.

(** [isinstance(v, list)]. *)
Definition isinstance_list (v : pyval) : bool :=
  match v with
  | PList _ => true
  | _ => false
  end.

(** [type(v).__name__], used in the text of the exceptions. *)
Definition type_name (v : pyval) : string :=
  match v with
  | PNone => "NoneType"
  | PBool _ => "bool"
  | PInt _ => "int"
  | PFloat _ => "float"
  | PStr _ => "str"
  | PList _ => "list"
  | PDict _ => "dict"
  end.

(** ** The feed catalogue and the pipeline text *)

Record Feed : Type := { name : string; url : string }.

(** [{f['name']: f['url'] for f in feeds}]: a later feed of the same name
    replaces the earlier one. *)
Definition feed_map (feeds : list Feed) : gmap string string :=
  foldl (λ m f, <[name f := url f]> m) ∅ feeds.

(** [key in fm] for a dict with string keys: lists and dicts are not
    hashable, every other value is looked up and only a string can be found. *)
Definition dict_contains (fm : gmap string string) (key : pyval) : result bool :=
  match key with
  | PStr s => Ok (bool_decide (is_Some (fm !! s)))
  | PList _ | PDict _ =>
      Raise (TypeError ("unhashable type: '" +:+ type_name key +:+ "'"))
  | _ => Ok false
  end.

(** [fm[key]].  The comprehension reads it only after [key in fm] held, so
    the [KeyError] branches are never taken; their text is not modelled
    beyond the quoted key of a string. *)
Definition dict_getitem (fm : gmap string string) (key : pyval) : result string :=
  match key with
  | PStr s =>
      match fm !! s with
      | Some u => Ok u
      | None => Raise (KeyError ("'" +:+ s +:+ "'"))
      end
  | PList _ | PDict _ =>
      Raise (TypeError ("unhashable type: '" +:+ type_name key +:+ "'"))
  | _ => Raise (KeyError (type_name key))
  end.

(** [[fm[name] for name in composite if name in fm]]. *)
Fixpoint select_urls (fm : gmap string string) (composite : list pyval)
  : result (list string) :=
  match composite with
  | [] => Ok []
  | key :: rest =>
      found ← dict_contains fm key;
      if found : bool
      then u ← dict_getitem fm key;
           us ← select_urls fm rest;
           mret (u :: us)
      else select_urls fm rest
  end.

(** The decode chain of one source (line 62). *)
Definition source_chain (idx : nat) (u : string) : string :=
  "rtspsrc location=" +:+ u +:+
  " latency=100 ! rtph264depay ! h264parse ! avdec_h264 ! videoconvert ! videoscale ! video/x-raw,width=640,height=360 ! queue name=q" +:+
  pretty idx.

(** The pad properties the loop of lines 69-72 appends for sink [i]. *)
Definition sink_props (i : nat) : string :=
  let xpos := (i mod 3) * 640 in
  let ypos := (i / 3) * 360 in
  "sink_" +:+ pretty i +:+ "::xpos=" +:+ pretty xpos +:+
  " sink_" +:+ pretty i +:+ "::ypos=" +:+ pretty ypos +:+ " ".

Definition compositor_head : string :=
  "compositor name=mix sink_0::xpos=0 sink_0::ypos=0 ".

Definition encode_chain : string :=
  "! videoconvert ! x264enc tune=zerolatency bitrate=2048 speed-preset=ultrafast ! rtph264pay ! queue ! webrtcbin bundle-policy=max-bundle name=sendrecv ".

(** Lines 68-73: sink 0 is written out, sinks [1 .. n-1] come from the loop
    over [range(1, n)]. *)
Definition compositor (n : nat) : string :=
  foldl (λ acc i, acc +:+ sink_props i) compositor_head (seq 1 (n - 1))
  +:+ encode_chain.

Definition default_stun : string := "stun:stun.l.google.com:19302".

(** Lines 76-77. *)
Definition webrtc_signaling (webrtc : gmap string string) : string :=
  "sendrecv.stun-server=" +:+ default default_stun (webrtc !! "stun_server").

(** Lines 59-64; [compositor_inputs] is filled by the same loop and never
    read afterwards. *)
Definition pipeline_parts (selected_urls : list string) : list string :=
  imap source_chain selected_urls.

Definition compositor_inputs (selected_urls : list string) : list string :=
  imap (λ idx _, "q" +:+ pretty idx +:+ ".") selected_urls.

(** Lines 80-81. *)
Definition pipeline_text (selected_urls : list string)
    (webrtc : gmap string string) : string :=
  String.concat " " (pipeline_parts selected_urls)
  +:+ " " +:+ compositor (length selected_urls)
  +:+ " " +:+ webrtc_signaling webrtc.

Definition no_valid_feeds : exn :=
  ValueError "No valid feeds selected for composite.".

(** Lines 53-81 of [build_pipeline], everything but the log call: the text
    the function returns, or the exception it raises. *)
Definition build_pipeline_text (feeds : list Feed) (composite : list pyval)
    (webrtc : gmap string string) : result string :=
  selected_urls ← select_urls (feed_map feeds) composite;
  match selected_urls with
  | [] => Raise no_valid_feeds
  | _ => mret (pipeline_text selected_urls webrtc)
  end.

(** ** The world: the module globals, the log and the worker processes *)

(** The identity of a [Popen] object. *)
Definition pid : Type := nat.

Inductive level : Type := DEBUG | INFO | WARNING | ERROR.

(** What the control plane does to the outside, in the order it happens. *)
Inductive event : Type :=
  | Log (lvl : level) (msg : string)
  | Spawned (cmd : string) (h : pid)
  | SpawnFailed (cmd : string) (e : exn)
  | Terminate (h : pid) (r : result unit)
  | Wait (h : pid) (timeout : nat) (r : result unit).

Record Config : Type := {
  cfg_feeds : list Feed;
  cfg_composite : list pyval;
  cfg_webrtc : gmap string string;
}.

(** The answers of the outside, each a function of everything that happened
    before: [subprocess.Popen(cmd, shell=True)] returns a process object or
    raises, [terminate()] and [wait(timeout)] return or raise,
    [load_config()] reads the file again at every call. *)
Record Env : Type := {
  env_popen : list event → string → result pid;
  env_terminate : list event → pid → result unit;
  env_wait : list event → pid → nat → result unit;
  env_load_config : list event → result Config;
  env_format_exc : exn → string;
}.

(** The global [GST_PROCESS] and everything done so far, oldest first. *)
Record world : Type := {
  GST_PROCESS : option pid;
  events : list event;
}.

Definition initial : world := {| GST_PROCESS := None; events := [] |}.

(** State and exceptions: a raised exception keeps the world as the
    statements before it left it. *)
Definition M (A : Type) : Type := world → result A * world.

Global Instance M_ret : MRet M := λ A a w, (Ok a, w).

Global Instance M_bind : MBind M := λ A B k m w,
  match m w with
  | (Ok a, w') => k a w'
  | (Raise e, w') => (Raise e, w')
  end.

Definition raise {A} (e : exn) : M A := λ w, (Raise e, w).

(** [try: m except Exception as e: ...], with the outcome handed on. *)
Definition attempt {A} (m : M A) : M (result A) :=
  λ w, let '(r, w') := m w in (Ok r, w').

Definition lift {A} (r : result A) : M A := λ w, (r, w).

Definition emit (e : event) : M unit :=
  λ w, (Ok (), {| GST_PROCESS := GST_PROCESS w; events := events w ++ [e] |}).

Definition logging (lvl : level) (msg : string) : M unit := emit (Log lvl msg).

Definition read_GST_PROCESS : M (option pid) := λ w, (Ok (GST_PROCESS w), w).

Definition write_GST_PROCESS (p : option pid) : M unit :=
  λ w, (Ok (), {| GST_PROCESS := p; events := events w |}).

(** ** Requests and responses *)

Record Response : Type := {
  status_code : nat;
  json : pyval;
}.

(** [jsonify({'status': s})], with the status code of the return. *)
Definition status_response (code : nat) (s : string) : Response :=
  {| status_code := code; json := PDict [("status", PStr s)] |}.

(** The value a dict binds to [key], if any. *)
Fixpoint dict_find (d : list (string * pyval)) (key : string) : option pyval :=
  match d with
  | [] => None
  | (k, v) :: rest => if decide (k = key) then Some v else dict_find rest key
  end.

(** [data.get(key)]: only a dict has the method, and a missing key gives
    [None]. *)
Definition py_get (data : pyval) (key : string) : result pyval :=
  match data with
  | PDict d => Ok (default PNone (dict_find d key))
  | _ => Raise (AttributeError
           ("'" +:+ type_name data +:+ "' object has no attribute 'get'"))
  end.

(** The elements of a value known to be a list. *)
Definition list_items (v : pyval) : list pyval :=
  match v with
  | PList l => l
  | _ => []
  end.

(** Lines 40-83. *)
Definition build_pipeline (feeds : list Feed) (composite : list pyval)
    (webrtc : gmap string string) : M string :=
  pipeline ← lift (build_pipeline_text feeds composite webrtc);
  logging INFO ("Generated GStreamer pipeline: " +:+ pipeline);;
  mret pipeline.

Section Program.
Variable env : Env.

Definition Popen (cmd : string) : M pid :=
  λ w, match env_popen env (events w) cmd with
       | Ok h => (emit (Spawned cmd h);; mret h) w
       | Raise e => (emit (SpawnFailed cmd e);; raise e) w
       end.

Definition terminate (h : pid) : M unit :=
  λ w, let r := env_terminate env (events w) h in
       (emit (Terminate h r);; lift r) w.

Definition wait (h : pid) (timeout : nat) : M unit :=
  λ w, let r := env_wait env (events w) h timeout in
       (emit (Wait h timeout r);; lift r) w.

Definition load_config : M Config :=
  λ w, (env_load_config env (events w), w).

(** Lines 86-106.  The block under [with GST_LOCK] runs as one step; a
    [Popen] object is always true, so [if GST_PROCESS] tests for [None]. *)
Definition start_gst (feeds : list Feed) (composite : list pyval)
    (webrtc : gmap string string) : M bool :=
  built ← attempt (build_pipeline feeds composite webrtc);
  match built with
  | Raise e =>
      logging ERROR ("Failed to build pipeline: " +:+ str_exn e);;
      logging DEBUG (env_format_exc env e);;
      mret false
  | Ok pipeline =>
      proc ← read_GST_PROCESS;
      match proc with
      | Some _ =>
          logging WARNING "GStreamer process is already running.";;
          mret false
      | None =>
          spawned ← attempt (h ← Popen pipeline;
                             write_GST_PROCESS (Some h);;
                             logging INFO "Started GStreamer process.");
          match spawned with
          | Ok _ => mret true
          | Raise e =>
              logging ERROR ("Failed to start GStreamer process: " +:+ str_exn e);;
              logging DEBUG (env_format_exc env e);;
              write_GST_PROCESS None;;
              mret false
          end
      end
  end.

(** Lines 109-124. *)
Definition stop_gst : M bool :=
  proc ← read_GST_PROCESS;
  match proc with
  | Some h =>
      stopped ← attempt (terminate h;;
                         wait h 5;;
                         logging INFO "Stopped GStreamer process.");
      match stopped with
      | Ok _ => mret ()
      | Raise e =>
          logging ERROR ("Error stopping GStreamer process: " +:+ str_exn e);;
          logging DEBUG (env_format_exc env e)
      end;;
      write_GST_PROCESS None;;
      mret true
  | None =>
      logging WARNING "No GStreamer process to stop.";;
      mret false
  end.

(** ** The Flask handlers *)

(** Lines 127-144. *)
Definition start : M Response :=
  config ← load_config;
  let feeds := cfg_feeds config in
  let composite := cfg_composite config in
  let webrtc := cfg_webrtc config in
  started ← start_gst feeds composite webrtc;
  if started : bool
  then mret (status_response 200 "started")
  else mret (status_response 400 "already running or error").

(** Lines 147-160. *)
Definition stop : M Response :=
  stopped ← stop_gst;
  if stopped : bool
  then mret (status_response 200 "stopped")
  else mret (status_response 400 "not running").

(** Lines 163-191; [data] is [request.json], the parsed body. *)
Definition update (data : pyval) : M Response :=
  composite ← lift (py_get data "composite");
  config ← load_config;
  let feeds := cfg_feeds config in
  let webrtc := cfg_webrtc config in
  stop_gst;;
  if negb (truthy composite) || negb (isinstance_list composite)
  then
    logging ERROR "Invalid composite list provided in update request.";;
    mret (status_response 400 "invalid composite")
  else
    started ← start_gst feeds (list_items composite) webrtc;
    if started : bool
    then mret {| status_code := 200;
                json := PDict [("status", PStr "updated");
                               ("composite", composite)] |}
    else mret (status_response 500 "failed to update").

End Program.

(** ** Vocabulary of the statements *)

Definition catalog_names (feeds : list Feed) : list string := name <$> feeds.

(** The entries of the selection that name a feed, in the order of the
    selection. *)
Definition retained (feeds : list Feed) (names : list string) : list string :=
  filter (λ n, n ∈ catalog_names feeds) names.

(** The grid of the specification: three columns of cells of 640 by 360,
    filled left to right and top to bottom. *)
Definition layout_slot (index : nat) : nat * nat :=
  ((index mod 3) * 640, (index / 3) * 360).

(** The two pad properties that place sink [i] at [(x, y)]. *)
Definition pad_position (i x y : nat) : string :=
  "sink_" +:+ pretty i +:+ "::xpos=" +:+ pretty x +:+
  " sink_" +:+ pretty i +:+ "::ypos=" +:+ pretty y +:+ " ".

Definition join_all (l : list string) : string := foldr String.app "" l.

(** The compositing and encoding stage with every sink [0 .. n-1] placed by
    the grid, sink 0 included. *)
Definition compositor_spec (n : nat) : string :=
  "compositor name=mix "
  +:+ join_all ((λ i, pad_position i (layout_slot i).1 (layout_slot i).2)
                <$> seq 0 n)
  +:+ encode_chain.

(** The positions at which [n] stands in [kept], counted from [i]. *)
Fixpoint slots_of (n : string) (kept : list string) (i : nat) : list nat :=
  match kept with
  | [] => []
  | m :: rest =>
      if decide (m = n) then i :: slots_of n rest (S i) else slots_of n rest (S i)
  end.

Definition catalog3 : list Feed :=
  [ {| name := "cam1"; url := "urlA" |};
    {| name := "cam2"; url := "urlB" |};
    {| name := "cam3"; url := "urlC" |} ].

(** The requests of the control API and the worlds they lead to. *)
Inductive request : Type :=
  | PostStart
  | PostStop
  | PostUpdate (data : pyval).

Definition handle (env : Env) (r : request) : M Response :=
  match r with
  | PostStart => start env
  | PostStop => stop env
  | PostUpdate data => update env data
  end.

(** The world after a sequence of requests, each handled to its end; a
    handler that raises leaves the world as it was when it raised. *)
Definition run (env : Env) (reqs : list request) (w : world) : world :=
  foldl (λ w r, (handle env r w).2) w reqs.

Fixpoint remove_first (h : pid) (held : list pid) : list pid :=
  match held with
  | [] => []
  | h' :: rest => if decide (h' = h) then rest else h' :: remove_first h rest
  end.

Definition track (held : list pid) (e : event) : list pid :=
  match e with
  | Spawned _ h => held ++ [h]
  | Terminate h _ => remove_first h held
  | _ => held
  end.

(** The workers that were spawned and have not been told to terminate, by
    the events so far. *)
Definition unreleased (evs : list event) : list pid := foldl track [] evs.

(** At no point of the history were two such workers outstanding. *)
Definition at_most_one_worker (evs : list event) : Prop :=
  ∀ pre, pre `prefix_of` evs → length (unreleased pre) ≤ 1.

(** [tracked held evs]: the history [evs] never had two outstanding workers
    and ends with the workers [held] outstanding. *)
Definition tracked (held : list pid) (evs : list event) : Prop :=
  unreleased evs = held ∧ at_most_one_worker evs.

(** The invariant of the manager between two operations: the handle it
    holds is the one outstanding worker, if there is any. *)
Definition consistent (w : world) : Prop :=
  tracked (option_list (GST_PROCESS w)) (events w).

(** Events that neither spawn a worker nor tell one to terminate. *)
Definition is_quiet (e : event) : Prop :=
  match e with
  | Spawned _ _ | Terminate _ _ => False
  | _ => True
  end.

Definition is_log (e : event) : Prop :=
  match e with
  | Log _ _ => True
  | _ => False
  end.

Definition is_spawn_attempt (e : event) : Prop :=
  match e with
  | Spawned _ _ | SpawnFailed _ _ => True
  | _ => False
  end.

Definition is_wait_or_log (e : event) : Prop :=
  match e with
  | Wait _ _ _ | Log _ _ => True
  | _ => False
  end.

Definition is_4xx (r : Response) : Prop := 400 ≤ status_code r < 500.

(** A configuration and an outside world in which every call succeeds. *)
Definition config3 : Config :=
  {| cfg_feeds := catalog3;
     cfg_composite := [PStr "cam1"; PStr "cam3"];
     cfg_webrtc := ∅ |}.

Definition env_ok : Env :=
  {| env_popen := λ evs _, Ok (length evs);
     env_terminate := λ _ _, Ok ();
     env_wait := λ _ _ _, Ok ();
     env_load_config := λ _, Ok config3;
     env_format_exc := λ e, "Traceback (most recent call last): " +:+ str_exn e |}.

(** An outside world whose workers ignore the request to terminate. *)
Definition env_stuck : Env :=
  {| env_popen := λ evs _, Ok (length evs);
     env_terminate := λ _ _, Ok ();
     env_wait := λ _ _ _, Raise (TimeoutExpired "timed out after 5 seconds");
     env_load_config := λ _, Ok config3;
     env_format_exc := λ e, "Traceback (most recent call last): " +:+ str_exn e |}.

(** The body [{"composite": ["cam9"]}], a name the catalogue does not have. *)
Definition body_cam9 : pyval := PDict [("composite", PList [PStr "cam9"])].

Definition running (h : pid) : world :=
  {| GST_PROCESS := Some h; events := [Spawned "gst" h] |}.

(** ** The signalling placeholder *)

(** Carriage return and line feed, the [\r\n] of the source. *)
Definition crlf : string :=
  String (Ascii.ascii_of_nat 13) (String (Ascii.ascii_of_nat 10) "").

(** The fixed answer of line 220. *)
Definition sdp_answer : string :=
  "v=0" +:+ crlf +:+
  "o=- 0 0 IN IP4 127.0.0.1" +:+ crlf +:+
  "s=GStreamer WebRTC" +:+ crlf +:+
  "t=0 0" +:+ crlf +:+
  "m=video 9 UDP/TLS/RTP/SAVPF 96" +:+ crlf +:+
  "c=IN IP4 0.0.0.0" +:+ crlf +:+
  "a=rtcp:9 IN IP4 0.0.0.0" +:+ crlf +:+
  "a=ice-ufrag:dummy" +:+ crlf +:+
  "a=ice-pwd:dummy" +:+ crlf +:+
  "a=fingerprint:sha-256 DUMMY" +:+ crlf +:+
  "a=setup:actpass" +:+ crlf +:+
  "a=mid:video0" +:+ crlf +:+
  "a=sendonly" +:+ crlf +:+
  "a=rtpmap:96 H264/90000" +:+ crlf +:+
  "a=ssrc:1 cname:stream" +:+ crlf.

Definition offer_file : string := "client_offer.sdp".

(** Lines 195-221 over the files of the working directory, by name.
    [open(name, 'w')] answers through [open_w] and empties the file when it
    succeeds; [f.write] takes a [str] only and encodes it at once, which
    the encoding of the file, [encode], may refuse ([UnicodeEncodeError]);
    the file then stays empty. *)
Definition offer (open_w : gmap string string → string → result unit)
    (encode : string → result unit)
    (data : pyval) (files : gmap string string)
  : result Response * gmap string string :=
  match py_get data "sdp" with
  | Raise e => (Raise e, files)
  | Ok sdp_offer =>
      if negb (truthy sdp_offer)
      then (Ok {| status_code := 400;
                  json := PDict [("error", PStr "No SDP offer provided")] |},
            files)
      else
        match open_w files offer_file with
        | Raise e => (Raise e, files)
        | Ok _ =>
            let opened := <[offer_file := ""]> files in
            match sdp_offer with
            | PStr text =>
                match encode text with
                | Raise e => (Raise e, opened)
                | Ok _ =>
                    (Ok {| status_code := 200;
                           json := PDict [("sdp", PStr sdp_answer);
                                          ("type", PStr "answer")] |},
                     <[offer_file := text]> opened)
                end
            | _ =>
                (Raise (TypeError ("write() argument must be str, not "
                                   +:+ type_name sdp_offer)),
                 opened)
            end
        end
  end.

(** ** Further vocabulary *)

(** Values a dict accepts as a key. *)
Definition hashable (v : pyval) : bool :=
  match v with
  | PList _ | PDict _ => false
  | _ => true
  end.

(** The critical sections of the manager, the units that the lock orders
    when requests are handled concurrently. *)
Inductive call : Type :=
  | CallStartGst (feeds : list Feed) (composite : list pyval)
                 (webrtc : gmap string string)
  | CallStopGst.

Definition do_call (env : Env) (c : call) (w : world) : world :=
  match c with
  | CallStartGst feeds composite webrtc =>
      (start_gst env feeds composite webrtc w).2
  | CallStopGst => (stop_gst env w).2
  end.

Definition run_calls (env : Env) (calls : list call) (w : world) : world :=
  foldl (λ w c, do_call env c w) w calls.

Definition generated_log (pipeline : string) : event :=
  Log INFO ("Generated GStreamer pipeline: " +:+ pipeline).

Definition is_spawned (e : event) : Prop :=
  match e with
  | Spawned _ _ => True
  | _ => False
  end.

(** Two cells of 640 by 360 with the given corners do not overlap. *)
Definition cells_disjoint (a b : nat * nat) : Prop :=
  a.1 + 640 ≤ b.1 ∨ b.1 + 640 ≤ a.1 ∨ a.2 + 360 ≤ b.2 ∨ b.2 + 360 ≤ a.2.

(** Outside worlds in which one call fails. *)
Definition env_no_spawn : Env :=
  {| env_popen := λ _ _, Raise (OSError "[Errno 12] Cannot allocate memory");
     env_terminate := λ _ _, Ok ();
     env_wait := λ _ _ _, Ok ();
     env_load_config := λ _, Ok config3;
     env_format_exc := λ e, "Traceback (most recent call last): " +:+ str_exn e |}.

Definition env_denied : Env :=
  {| env_popen := λ evs _, Ok (length evs);
     env_terminate := λ _ _, Raise (OSError "[Errno 1] Operation not permitted");
     env_wait := λ _ _ _, Ok ();
     env_load_config := λ _, Ok config3;
     env_format_exc := λ e, "Traceback (most recent call last): " +:+ str_exn e |}.

Definition env_no_config : Env :=
  {| env_popen := λ evs _, Ok (length evs);
     env_terminate := λ _ _, Ok ();
     env_wait := λ _ _ _, Ok ();
     env_load_config := λ _, Raise (OSError "[Errno 2] No such file or directory: 'config.yaml'");
     env_format_exc := λ e, "Traceback (most recent call last): " +:+ str_exn e |}.

Definition open_ok (files : gmap string string) (path : string) : result unit :=
  Ok ().

(** An encoding that takes every text, and one that takes none
    ([UnicodeEncodeError] is a [ValueError]). *)
Definition encode_ok (text : string) : result unit := Ok ().

Definition unicode_encode_error : exn :=
  ValueError "'utf-8' codec can't encode character: surrogates not allowed".

Definition encode_none (text : string) : result unit := Raise unicode_encode_error.

(** ** Workers that are still running *)

(** [wait] returning is how the manager sees a worker exit; a [terminate]
    alone, or a [wait] that timed out, leaves the worker running. *)
Definition reap (alive : list pid) (e : event) : list pid :=
  match e with
  | Spawned _ h => alive ++ [h]
  | Wait h _ (Ok _) => remove_first h alive
  | _ => alive
  end.

(** The workers that were spawned and that no [wait] has seen exit. *)
Definition still_running (evs : list event) : list pid := foldl reap [] evs.

(** A start, a stop and a second start. *)
Definition start_stop_start : list request := [PostStart; PostStop; PostStart].

(** * Properties *)

(** ** The catalogue *)

Lemma feed_map_nil : feed_map [] = ∅.
Proof. reflexivity. Qed.

Lemma feed_map_snoc feeds f :
  feed_map (feeds ++ [f]) = <[name f := url f]> (feed_map feeds).
Proof. unfold feed_map. by rewrite foldl_snoc. Qed.

Lemma feed_map_is_Some feeds n :
  is_Some (feed_map feeds !! n) ↔ n ∈ catalog_names feeds.
Proof.
  unfold catalog_names.
  induction feeds as [|f feeds IH] using rev_ind.
  - rewrite feed_map_nil.
    split; [intros [u Hu]; by rewrite lookup_empty in Hu | by intros ?%elem_of_nil].
  - rewrite feed_map_snoc, fmap_app, elem_of_app, <- IH. simpl.
    rewrite list_elem_of_singleton, lookup_insert.
    case_decide; subst; split; eauto; intros [?|?]; eauto; congruence.
Qed.

Lemma feed_map_None feeds n :
  feed_map feeds !! n = None ↔ n ∉ catalog_names feeds.
Proof. rewrite <- feed_map_is_Some, eq_None_not_Some. done. Qed.

(** A name the map resolves is the name of a feed of the catalogue that
    carries the resolved address. *)
Lemma feed_map_Some feeds n u :
  feed_map feeds !! n = Some u → {| name := n; url := u |} ∈ feeds.
Proof.
  induction feeds as [|f feeds IH] using rev_ind.
  - by rewrite feed_map_nil, lookup_empty.
  - rewrite feed_map_snoc, lookup_insert, elem_of_app.
    case_decide; subst.
    + intros [= <-]. right. destruct f. apply list_elem_of_singleton. done.
    + auto.
Qed.

(** ** The selection *)

Lemma select_urls_names fm (names : list string) :
  select_urls fm (PStr <$> names) = Ok (omap (λ n, fm !! n) names).
Proof.
  induction names as [|n names IH]; [done|].
  cbn [fmap list_fmap select_urls dict_contains dict_getitem omap list_omap mbind result_bind].
  rewrite IH. destruct (fm !! n) as [u|] eqn:Hn.
  - rewrite bool_decide_true by eauto. done.
  - rewrite bool_decide_false by (by intros [? ?]). done.
Qed.

Lemma selected_retained feeds names :
  Forall2 (λ n u, feed_map feeds !! n = Some u)
          (retained feeds names) (omap (λ n, feed_map feeds !! n) names).
Proof.
  unfold retained. induction names as [|n names IH]; [constructor|].
  cbn [omap list_omap]. rewrite filter_cons.
  destruct (feed_map feeds !! n) as [u|] eqn:Hn.
  - rewrite decide_True by (apply feed_map_is_Some; eauto). by constructor.
  - rewrite decide_False by (by apply feed_map_None). done.
Qed.

(** C2.  For every catalogue and every selection of names, the sources that
    [build_pipeline] keeps are exactly the entries of the selection whose
    name is in the catalogue, in the order of the selection, each resolved
    to the address of a catalogue feed of that name; the decode chain of the
    [i]-th kept entry carries index [i], so the indices run over
    [0 .. k-1] for the [k] kept entries and not over the raw selection. *)
Theorem selection_filtered_in_order (feeds : list Feed) (names : list string) :
  ∃ urls,
    select_urls (feed_map feeds) (PStr <$> names) = Ok urls
    ∧ Forall2 (λ n u, {| name := n; url := u |} ∈ feeds
                      ∧ feed_map feeds !! n = Some u)
              (retained feeds names) urls
    ∧ length (pipeline_parts urls) = length (retained feeds names)
    ∧ ∀ i n, retained feeds names !! i = Some n →
        ∃ u, urls !! i = Some u
             ∧ pipeline_parts urls !! i = Some (source_chain i u).
Proof.
  exists (omap (λ n, feed_map feeds !! n) names).
  pose proof (selected_retained feeds names) as Hsel.
  split; [apply select_urls_names|].
  split.
  { eapply Forall2_impl; [exact Hsel|]. intros n u Hu. split; [|done].
    by apply feed_map_Some. }
  unfold pipeline_parts. rewrite length_imap. split.
  { symmetry. by eapply Forall2_length. }
  intros i n Hi.
  destruct (Forall2_lookup_l _ _ _ _ _ Hsel Hi) as (u & Hu & _).
  exists u. split; [done|]. by rewrite list_lookup_imap, Hu.
Qed.

(** The scenario of the specification: [cam9] is dropped, [cam1] takes
    index 0 and [cam3] index 1. *)
Example selection_cam1_cam3_cam9 :
  retained catalog3 ["cam1"; "cam3"; "cam9"] = ["cam1"; "cam3"]
  ∧ select_urls (feed_map catalog3) (PStr <$> ["cam1"; "cam3"; "cam9"])
    = Ok ["urlA"; "urlC"]
  ∧ pipeline_parts ["urlA"; "urlC"]
    = [source_chain 0 "urlA"; source_chain 1 "urlC"].
Proof. repeat split; vm_compute; reflexivity. Qed.

(** ** Strings *)

Lemma string_app_assoc (a b c : string) : (a +:+ b) +:+ c = a +:+ b +:+ c.
Proof.
  induction a as [|x a IH]; [done|].
  change (String x ((a +:+ b) +:+ c) = String x (a +:+ b +:+ c)).
  by rewrite IH.
Qed.

Lemma string_app_nil_r (a : string) : a +:+ "" = a.
Proof.
  induction a as [|x a IH]; [done|].
  change (String x (a +:+ "") = String x a). by rewrite IH.
Qed.

Lemma foldl_app_join_all {A} (f : A → string) (l : list A) (acc : string) :
  foldl (λ acc i, acc +:+ f i) acc l = acc +:+ join_all (f <$> l).
Proof.
  revert acc. induction l as [|x l IH]; intros acc.
  - by rewrite string_app_nil_r.
  - cbn [foldl fmap list_fmap join_all foldr]. rewrite IH.
    by rewrite string_app_assoc.
Qed.

(** ** The layout *)

Lemma sink_props_layout i :
  sink_props i = pad_position i (layout_slot i).1 (layout_slot i).2.
Proof. reflexivity. Qed.

Lemma compositor_head_layout :
  compositor_head = "compositor name=mix " +:+ sink_props 0.
Proof. vm_compute. reflexivity. Qed.

(** The loop of the source, started after the sink written by hand, places
    the sinks as the grid does from sink 0 on. *)
Lemma compositor_refines n : 0 < n → compositor n = compositor_spec n.
Proof.
  intros Hn. unfold compositor, compositor_spec.
  rewrite foldl_app_join_all, compositor_head_layout.
  destruct n as [|n]; [lia|]. replace (S n - 1) with n by lia.
  cbn [seq fmap list_fmap join_all foldr].
  fold (join_all (sink_props <$> seq 1 n)).
  fold (join_all ((λ i, pad_position i (layout_slot i).1 (layout_slot i).2) <$> seq 1 n)).
  rewrite <- sink_props_layout.
  rewrite !string_app_assoc. do 3 f_equal.
Qed.

Lemma build_pipeline_text_names feeds names webrtc :
  build_pipeline_text feeds (PStr <$> names) webrtc
  = match omap (λ n, feed_map feeds !! n) names with
    | [] => Raise no_valid_feeds
    | urls => Ok (pipeline_text urls webrtc)
    end.
Proof.
  unfold build_pipeline_text. rewrite select_urls_names.
  cbn [mbind result_bind]. by destruct (omap _ names).
Qed.

(** C3.  When at least one entry of the selection names a feed, the text
    that [build_pipeline] returns is, in this order, the decode chains of
    the kept sources, the compositing and encoding stage, and the transport
    setting; the compositing stage places every sink [i], sink 0 included,
    at [x = (i mod 3) * 640] and [y = (i div 3) * 360], which for sink 0 is
    the origin the source writes out by hand. *)
Theorem pipeline_layout_and_order (feeds : list Feed) (names : list string)
    (webrtc : gmap string string) :
  retained feeds names ≠ [] →
  ∃ urls,
    select_urls (feed_map feeds) (PStr <$> names) = Ok urls
    ∧ length urls = length (retained feeds names)
    ∧ build_pipeline_text feeds (PStr <$> names) webrtc
      = Ok (String.concat " " (imap source_chain urls)
            +:+ " "
            +:+ ("compositor name=mix "
                 +:+ join_all ((λ i, pad_position i ((i mod 3) * 640)
                                                    ((i / 3) * 360))
                               <$> seq 0 (length urls))
                 +:+ encode_chain)
            +:+ " "
            +:+ webrtc_signaling webrtc)
    ∧ layout_slot 0 = (0, 0)
    ∧ pad_position 0 0 0 = "sink_0::xpos=0 sink_0::ypos=0 ".
Proof.
  intros Hkept.
  pose proof (selected_retained feeds names) as Hsel.
  exists (omap (λ n, feed_map feeds !! n) names).
  split; [apply select_urls_names|].
  assert (length (omap (λ n, feed_map feeds !! n) names)
          = length (retained feeds names)) as Hlen
    by (symmetry; by eapply Forall2_length).
  split; [done|]. split; [|by split; vm_compute].
  rewrite build_pipeline_text_names.
  destruct (omap _ names) as [|u urls] eqn:Hurls.
  { destruct (retained feeds names); [done|discriminate Hlen]. }
  unfold pipeline_text, pipeline_parts.
  rewrite compositor_refines by (cbn; lia). done.
Qed.

(** ** Selections that name no feed *)

Lemma omap_feed_map_absent feeds names :
  Forall (λ n, n ∉ catalog_names feeds) names →
  omap (λ n, feed_map feeds !! n) names = [].
Proof.
  induction 1 as [|n names Hn _ IH]; [done|].
  cbn [omap list_omap]. apply feed_map_None in Hn. by rewrite Hn.
Qed.

(** ** Repeated names *)

Lemma slots_of_elem n kept j i :
  i ∈ slots_of n kept j ↔ j ≤ i ∧ kept !! (i - j) = Some n.
Proof.
  revert j. induction kept as [|m kept IH]; intros j; cbn [slots_of].
  - split; [by intros ?%elem_of_nil|]. intros [_ Hi]. by rewrite lookup_nil in Hi.
  - assert (i ∈ slots_of n kept (S j) ↔ j < i ∧ (m :: kept) !! (i - j) = Some n)
      as Hrest.
    { rewrite IH. split.
      - intros [Hle Hi]. split; [lia|].
        replace (i - j) with (S (i - S j)) by lia. done.
      - intros [Hlt Hi]. split; [lia|].
        replace (i - j) with (S (i - S j)) in Hi by lia. done. }
    case_decide as Hm.
    + subst m. rewrite elem_of_cons, Hrest. split.
      * intros [->|[? ?]]; [|split; [lia|done]].
        split; [lia|]. by rewrite Nat.sub_diag.
      * intros [Hle Hi]. destruct (decide (i = j)) as [->|]; [by left|].
        right. split; [lia|done].
    + rewrite Hrest. split; [intros [? ?]; split; [lia|done]|].
      intros [Hle Hi]. destruct (decide (i = j)) as [->|]; [|split; [lia|done]].
      rewrite Nat.sub_diag in Hi. by injection Hi.
Qed.

Lemma slots_of_length n kept j :
  length (slots_of n kept j) = length (filter (λ m, m = n) kept).
Proof.
  revert j. induction kept as [|m kept IH]; intros j; [done|].
  cbn [slots_of]. rewrite filter_cons. case_decide; cbn; by rewrite IH.
Qed.

Lemma slots_of_sorted n kept j : StronglySorted lt (slots_of n kept j).
Proof.
  revert j. induction kept as [|m kept IH]; intros j; cbn [slots_of].
  - constructor.
  - case_decide; [|apply IH]. constructor; [apply IH|].
    apply Forall_forall. intros i Hi%slots_of_elem. lia.
Qed.

Lemma retained_occurrences feeds names n :
  n ∈ catalog_names feeds →
  filter (λ m, m = n) (retained feeds names) = filter (λ m, m = n) names.
Proof.
  intros Hn. unfold retained. rewrite list_filter_filter.
  apply list_filter_iff. intros m. split; [by intros [? _]|by intros ->].
Qed.

Lemma source_chain_inj u i j : source_chain i u = source_chain j u → i = j.
Proof.
  unfold source_chain. intros H.
  do 3 apply String.app_inj in H. by apply (inj pretty) in H.
Qed.

(** C10.  A name of the catalogue that stands [k] times in the selection is
    kept [k] times.  The pipeline text is the decode chains joined by
    spaces, then the compositor with its sinks, one chain and one sink per
    kept entry; the name occupies [k] positions among them, increasing in
    the order of the selection, and at each such position [i] stands the
    decode chain of the feed's address with queue [q<i>] and the pad
    properties of [sink_<i>] at the grid position of [i].  Chains of the
    same address at different positions differ. *)
Theorem duplicates_retained (feeds : list Feed) (names : list string)
    (webrtc : gmap string string) (n u : string) :
  feed_map feeds !! n = Some u →
  n ∈ names →
  ∃ chains sinks : list string,
    build_pipeline_text feeds (PStr <$> names) webrtc
    = Ok (String.concat " " chains
          +:+ " "
          +:+ ("compositor name=mix " +:+ join_all sinks +:+ encode_chain)
          +:+ " "
          +:+ webrtc_signaling webrtc)
    ∧ length chains = length (retained feeds names)
    ∧ length sinks = length (retained feeds names)
    ∧ let idxs := slots_of n (retained feeds names) 0 in
      length idxs = length (filter (λ m, m = n) names)
      ∧ StronglySorted lt idxs
      ∧ (∀ i, i ∈ idxs ↔ retained feeds names !! i = Some n)
      ∧ (∀ i, i ∈ idxs →
           chains !! i
           = Some ("rtspsrc location=" +:+ u +:+
                   " latency=100 ! rtph264depay ! h264parse ! avdec_h264 ! videoconvert ! videoscale ! video/x-raw,width=640,height=360 ! queue name=q" +:+
                   pretty i)
           ∧ sinks !! i
             = Some ("sink_" +:+ pretty i +:+ "::xpos=" +:+ pretty ((i mod 3) * 640)
                     +:+ " sink_" +:+ pretty i +:+ "::ypos="
                     +:+ pretty ((i / 3) * 360) +:+ " "))
      ∧ (∀ i j, source_chain i u = source_chain j u → i = j).
Proof.
  intros Hu Hn.
  assert (n ∈ catalog_names feeds) as Hcat by (apply feed_map_is_Some; eauto).
  pose proof (selected_retained feeds names) as Hsel.
  rewrite build_pipeline_text_names.
  set (urls := omap (λ n, feed_map feeds !! n) names) in *.
  assert (length urls = length (retained feeds names)) as Hlen
    by (symmetry; by eapply Forall2_length).
  assert (urls ≠ []) as Hne.
  { intros Hnil. rewrite Hnil in Hsel. apply Forall2_nil_inv_r in Hsel.
    assert (n ∈ retained feeds names) as Hin
      by (apply list_elem_of_filter; done).
    rewrite Hsel in Hin. by apply elem_of_nil in Hin. }
  exists (pipeline_parts urls),
    ((λ i, pad_position i (layout_slot i).1 (layout_slot i).2)
     <$> seq 0 (length urls)).
  split.
  { destruct urls as [|u0 urls0] eqn:Hurls; [done|]. rewrite <- Hurls.
    unfold pipeline_text. rewrite compositor_refines; [done|].
    rewrite Hurls. cbn. lia. }
  split; [by unfold pipeline_parts; rewrite length_imap|].
  split; [by rewrite length_fmap, length_seq|].
  cbv zeta. split; [by rewrite slots_of_length, retained_occurrences|].
  split; [apply slots_of_sorted|].
  split.
  { intros i. rewrite slots_of_elem, Nat.sub_0_r.
    split; [by intros [_ ?]|intros ?; split; [lia|done]]. }
  split; [|intros i j; apply source_chain_inj].
  intros i Hi. apply slots_of_elem in Hi as [_ Hi]. rewrite Nat.sub_0_r in Hi.
  destruct (Forall2_lookup_l _ _ _ _ _ Hsel Hi) as (u' & Hu' & Hnu').
  assert (u' = u) as -> by congruence.
  split.
  - unfold pipeline_parts. by rewrite list_lookup_imap, Hu'.
  - rewrite list_lookup_fmap, lookup_seq_lt; [done|].
    by eapply lookup_lt_Some.
Qed.

(** ** The worker life cycle *)

Ltac step_M :=
  unfold start, stop, update, start_gst, stop_gst, build_pipeline, load_config,
    Popen, terminate, wait, attempt, logging, emit, lift, raise,
    read_GST_PROCESS, write_GST_PROCESS, mbind, M_bind, mret, M_ret;
  cbn [GST_PROCESS events fst snd].

Lemma unreleased_snoc evs e : unreleased (evs ++ [e]) = track (unreleased evs) e.
Proof. unfold unreleased. by rewrite foldl_snoc. Qed.

Lemma prefix_of_snoc {A} (pre l : list A) (x : A) :
  pre `prefix_of` l ++ [x] → pre = l ++ [x] ∨ pre `prefix_of` l.
Proof.
  intros [k Hk]. destruct k as [|y k _] using rev_ind.
  - left. by rewrite app_nil_r in Hk.
  - right. exists k. rewrite app_assoc in Hk. by apply app_inj_tail in Hk as [? _].
Qed.

Lemma tracked_nil : tracked [] [].
Proof.
  split; [done|]. intros pre Hpre. apply prefix_nil_inv in Hpre as ->. cbn. lia.
Qed.

Lemma tracked_snoc held evs e :
  tracked held evs → length (track held e) ≤ 1 → tracked (track held e) (evs ++ [e]).
Proof.
  intros [Hheld Hone] Hlen. split; [by rewrite unreleased_snoc, Hheld|].
  intros pre Hpre. apply prefix_of_snoc in Hpre as [->|Hpre]; [|by apply Hone].
  by rewrite unreleased_snoc, Hheld.
Qed.

Lemma tracked_quiet held evs e :
  is_quiet e → tracked held evs → tracked held (evs ++ [e]).
Proof.
  intros He Hevs. pose proof Hevs as [Hheld Hone].
  assert (track held e = held) as Htrack by (by destruct e).
  rewrite <- Htrack at 1. apply tracked_snoc; [done|].
  rewrite Htrack, <- Hheld. by apply Hone.
Qed.

Lemma tracked_spawned evs cmd h :
  tracked [] evs → tracked [h] (evs ++ [Spawned cmd h]).
Proof. intros Hevs. by apply (tracked_snoc [] evs (Spawned cmd h)). Qed.

Lemma tracked_terminate evs h r :
  tracked [h] evs → tracked [] (evs ++ [Terminate h r]).
Proof.
  intros Hevs. pose proof (tracked_snoc [h] evs (Terminate h r) Hevs) as H.
  cbn in H. rewrite decide_True in H by done. apply H. cbn. lia.
Qed.

(** A worker is only ever spawned while none is outstanding. *)
Lemma spawn_only_when_none evs pre cmd h :
  at_most_one_worker evs →
  pre ++ [Spawned cmd h] `prefix_of` evs → unreleased pre = [].
Proof.
  intros Hone Hpre. apply Hone in Hpre.
  rewrite unreleased_snoc in Hpre. cbn [track] in Hpre.
  rewrite length_app in Hpre. cbn in Hpre.
  destruct (unreleased pre); [done|]. cbn in Hpre. lia.
Qed.

Ltac track :=
  repeat first
    [ assumption
    | apply tracked_spawned
    | apply tracked_terminate
    | apply tracked_quiet; [exact I|] ].

Lemma stop_gst_consistent env w : consistent w → consistent (stop_gst env w).2.
Proof.
  destruct w as [[h|] evs]; unfold consistent; cbn [GST_PROCESS events option_list];
    intros Hw; step_M; [|cbn; track].
  destruct (env_terminate env evs h) as [[]|e]; cbn; [|track].
  destruct (env_wait env _ h 5) as [[]|e]; cbn; track.
Qed.

Lemma start_gst_consistent env feeds composite webrtc w :
  consistent w → consistent (start_gst env feeds composite webrtc w).2.
Proof.
  destruct w as [p evs]; unfold consistent; cbn [GST_PROCESS events];
    intros Hw; step_M.
  destruct (build_pipeline_text feeds composite webrtc) as [pipeline|e]; cbn;
    [|track].
  destruct p as [h|]; cbn; [track|].
  destruct (env_popen env _ pipeline) as [h|e]; cbn; track.
Qed.

Lemma stop_gst_returns env w : ∃ b, (stop_gst env w).1 = Ok b.
Proof.
  destruct w as [[h|] evs]; step_M; [|by eexists].
  destruct (env_terminate env evs h) as [[]|e]; cbn; [|by eexists].
  destruct (env_wait env _ h 5) as [[]|e]; cbn; by eexists.
Qed.

Lemma start_gst_returns env feeds composite webrtc w :
  ∃ b, (start_gst env feeds composite webrtc w).1 = Ok b.
Proof.
  destruct w as [p evs]; step_M.
  destruct (build_pipeline_text feeds composite webrtc) as [pipeline|e]; cbn;
    [|by eexists].
  destruct p as [h|]; cbn; [by eexists|].
  destruct (env_popen env _ pipeline) as [h|e]; cbn; by eexists.
Qed.

Lemma bind_run {A B} (m : M A) (k : A → M B) (w : world) :
  (m ≫= k) w
  = match m w with
    | (Ok a, w') => k a w'
    | (Raise e, w') => (Raise e, w')
    end.
Proof. reflexivity. Qed.

Lemma start_consistent env w : consistent w → consistent (start env w).2.
Proof.
  intros Hw. unfold start. rewrite bind_run. unfold load_config.
  destruct (env_load_config env (events w)) as [cfg|e]; [|done].
  rewrite bind_run.
  pose proof (start_gst_consistent env (cfg_feeds cfg) (cfg_composite cfg)
                (cfg_webrtc cfg) w Hw) as Hw'.
  destruct (start_gst env _ _ _ w) as [[[|]|e] w']; done.
Qed.

Lemma stop_consistent env w : consistent w → consistent (stop env w).2.
Proof.
  intros Hw. unfold stop. rewrite bind_run.
  pose proof (stop_gst_consistent env w Hw) as Hw'.
  destruct (stop_gst env w) as [[[|]|e] w']; done.
Qed.

Lemma update_consistent env data w : consistent w → consistent (update env data w).2.
Proof.
  intros Hw. unfold update. rewrite bind_run. unfold lift.
  destruct (py_get data "composite") as [composite|e]; [|done].
  rewrite bind_run. unfold load_config.
  destruct (env_load_config env (events w)) as [cfg|e]; [|done].
  rewrite bind_run.
  pose proof (stop_gst_consistent env w Hw) as Hw1.
  destruct (stop_gst env w) as [[b|e] w1]; [|done]. cbn [snd] in Hw1.
  destruct (negb (truthy composite) || negb (isinstance_list composite)).
  - step_M. cbn. unfold consistent in *. cbn. track.
  - rewrite bind_run.
    pose proof (start_gst_consistent env (cfg_feeds cfg) (list_items composite)
                  (cfg_webrtc cfg) w1 Hw1) as Hw2.
    destruct (start_gst env _ _ _ w1) as [[[|]|e] w2]; done.
Qed.

Lemma handle_consistent env r w : consistent w → consistent (handle env r w).2.
Proof.
  destruct r; cbn [handle];
    auto using start_consistent, stop_consistent, update_consistent.
Qed.

Lemma run_consistent env reqs w : consistent w → consistent (run env reqs w).
Proof.
  revert w. induction reqs as [|r reqs IH]; intros w Hw; [done|].
  cbn [run foldl]. apply IH. by apply handle_consistent.
Qed.

(** A start that finds a handle only logs. *)
Lemma start_gst_running env feeds composite webrtc w h :
  GST_PROCESS w = Some h →
  ∃ logs,
    Forall is_log logs
    ∧ start_gst env feeds composite webrtc w
      = (Ok false, {| GST_PROCESS := Some h; events := events w ++ logs |}).
Proof.
  destruct w as [p evs]; cbn [GST_PROCESS events]; intros ->. step_M.
  destruct (build_pipeline_text feeds composite webrtc) as [pipeline|e]; cbn.
  - exists [Log INFO ("Generated GStreamer pipeline: " +:+ pipeline);
            Log WARNING "GStreamer process is already running."].
    rewrite <- !app_assoc. split; [by repeat constructor|done].
  - exists [Log ERROR ("Failed to build pipeline: " +:+ str_exn e);
            Log DEBUG (env_format_exc env e)].
    rewrite <- !app_assoc. split; [by repeat constructor|done].
Qed.

(** C1, as the code has it: the invariant is about the handle, not about
    the processes of the operating system.  After any sequence of start,
    stop and update requests, run against any behaviour of the outside,
    the workers that were spawned and not yet
    told to terminate are exactly the handle the manager holds, none when it
    holds none; at no point of the history were there two of them, every
    spawn having happened while none was outstanding; and a start that
    finds a handle fails, keeps the handle and adds nothing but log records,
    so it spawns nothing. *)
Theorem process_uniqueness (env : Env) (reqs : list request) :
  let w := run env reqs initial in
  unreleased (events w) = option_list (GST_PROCESS w)
  ∧ length (unreleased (events w)) ≤ 1
  ∧ at_most_one_worker (events w)
  ∧ (∀ pre cmd h,
       pre ++ [Spawned cmd h] `prefix_of` events w → unreleased pre = [])
  ∧ ∀ feeds composite webrtc h,
      GST_PROCESS w = Some h →
      ∃ logs,
        Forall is_log logs
        ∧ start_gst env feeds composite webrtc w
          = (Ok false, {| GST_PROCESS := Some h; events := events w ++ logs |}).
Proof.
  intros w.
  assert (consistent w) as [Hheld Hone].
  { apply run_consistent. apply tracked_nil. }
  split; [done|]. split; [by apply Hone|]. split; [done|].
  split; [intros pre cmd h; by apply spawn_only_when_none|].
  intros feeds composite webrtc h Hh. by apply start_gst_running.
Qed.

(** C1, as the claim has it, fails: the handle is not always the single
    live worker.  When the workers ignore the request to terminate, a
    start, a stop and a second start leave the manager with the handle of
    worker 8 while worker 1, whose wait of 5 seconds timed out, was never
    seen to exit: the second start created a second running worker. *)
Lemma second_worker_after_timeout :
  events (run env_stuck start_stop_start initial)
  = [generated_log (pipeline_text ["urlA"; "urlC"] ∅);
     Spawned (pipeline_text ["urlA"; "urlC"] ∅) 1;
     Log INFO "Started GStreamer process.";
     Terminate 1 (Ok ());
     Wait 1 5 (Raise (TimeoutExpired "timed out after 5 seconds"));
     Log ERROR "Error stopping GStreamer process: timed out after 5 seconds";
     Log DEBUG "Traceback (most recent call last): timed out after 5 seconds";
     generated_log (pipeline_text ["urlA"; "urlC"] ∅);
     Spawned (pipeline_text ["urlA"; "urlC"] ∅) 8;
     Log INFO "Started GStreamer process."]
  ∧ GST_PROCESS (run env_stuck start_stop_start initial) = Some 8
  ∧ still_running (events (run env_stuck start_stop_start initial)) = [1; 8]
  ∧ ¬ length (still_running (events (run env_stuck start_stop_start initial))) ≤ 1.
Proof.
  assert (still_running (events (run env_stuck start_stop_start initial)) = [1; 8])
    as Hrun by (vm_compute; reflexivity).
  split; [vm_compute; reflexivity|]. split; [vm_compute; reflexivity|].
  split; [exact Hrun|]. rewrite Hrun. cbn. lia.
Qed.

(** C5.  In a state that holds a worker handle, [start_gst] returns [False]
    for every argument, and the [/start] handler leaves the same handle in
    place and adds only log records: nothing is terminated and nothing is
    spawned.  When the configuration loads, the response is 400 with status
    [already running or error]. *)
Theorem start_while_running_is_noop (env : Env) (w : world) (h : pid) :
  GST_PROCESS w = Some h →
  (∀ feeds composite webrtc,
     ∃ logs,
       Forall is_log logs
       ∧ start_gst env feeds composite webrtc w
         = (Ok false, {| GST_PROCESS := Some h; events := events w ++ logs |}))
  ∧ ∃ logs,
      Forall is_log logs
      ∧ (start env w).2 = {| GST_PROCESS := Some h; events := events w ++ logs |}
      ∧ ∀ cfg, env_load_config env (events w) = Ok cfg →
          (start env w).1 = Ok (status_response 400 "already running or error").
Proof.
  intros Hh. split; [intros; by apply start_gst_running|].
  unfold start. rewrite bind_run. unfold load_config.
  destruct (env_load_config env (events w)) as [cfg|e].
  - destruct (start_gst_running env (cfg_feeds cfg) (cfg_composite cfg)
                (cfg_webrtc cfg) w h Hh) as (logs & Hlogs & Hstart).
    rewrite bind_run, Hstart. exists logs. done.
  - exists []. rewrite app_nil_r. destruct w; cbn in *. subst. done.
Qed.

(** ** Stopping *)

Lemma stop_gst_running env w h :
  GST_PROCESS w = Some h →
  ∃ tail,
    Forall is_wait_or_log tail
    ∧ stop_gst env w
      = (Ok true,
         {| GST_PROCESS := None;
            events := events w
                      ++ Terminate h (env_terminate env (events w) h) :: tail |})
    ∧ ∀ e, env_terminate env (events w) h = Ok () →
        env_wait env (events w ++ [Terminate h (Ok ())]) h 5 = Raise e →
        tail = [Wait h 5 (Raise e);
                Log ERROR ("Error stopping GStreamer process: " +:+ str_exn e);
                Log DEBUG (env_format_exc env e)].
Proof.
  destruct w as [p evs]; cbn [GST_PROCESS events]; intros ->. step_M.
  destruct (env_terminate env evs h) as [[]|e]; cbn.
  - destruct (env_wait env _ h 5) as [[]|e]; cbn.
    + exists [Wait h 5 (Ok ()); Log INFO "Stopped GStreamer process."].
      rewrite <- !app_assoc. cbn.
      split; [by repeat constructor|]. split; [done|]. intros e _ He.
      discriminate He.
    + exists [Wait h 5 (Raise e);
              Log ERROR ("Error stopping GStreamer process: " +:+ str_exn e);
              Log DEBUG (env_format_exc env e)].
      rewrite <- !app_assoc. cbn.
      split; [by repeat constructor|]. split; [done|]. intros e' _ He.
      by injection He as ->.
  - exists [Log ERROR ("Error stopping GStreamer process: " +:+ str_exn e);
            Log DEBUG (env_format_exc env e)].
    rewrite <- !app_assoc. cbn.
    split; [by repeat constructor|]. split; [done|]. intros e' He. discriminate He.
Qed.

Lemma stop_gst_idle env w :
  GST_PROCESS w = None →
  stop_gst env w
  = (Ok false,
     {| GST_PROCESS := None;
        events := events w ++ [Log WARNING "No GStreamer process to stop."] |}).
Proof. destruct w as [p evs]; cbn [GST_PROCESS events]; intros ->. done. Qed.

(** C6.  A stop that finds a worker handle asks that worker to terminate
    and then, whatever [terminate] and [wait] answer, clears the handle and
    returns [True], and [/stop] answers 200 [stopped].  When the wait of 5
    seconds raises, the exception is logged (at level ERROR, followed by the
    traceback) and the outcome is the same. *)
Theorem stop_always_succeeds (env : Env) (w : world) (h : pid) :
  GST_PROCESS w = Some h →
  ∃ tail,
    let w' := {| GST_PROCESS := None;
                 events := events w
                           ++ Terminate h (env_terminate env (events w) h)
                              :: tail |} in
    Forall is_wait_or_log tail
    ∧ stop_gst env w = (Ok true, w')
    ∧ stop env w = (Ok (status_response 200 "stopped"), w')
    ∧ ∀ e, env_terminate env (events w) h = Ok () →
        env_wait env (events w ++ [Terminate h (Ok ())]) h 5 = Raise e →
        tail = [Wait h 5 (Raise e);
                Log ERROR ("Error stopping GStreamer process: " +:+ str_exn e);
                Log DEBUG (env_format_exc env e)].
Proof.
  intros Hh. destruct (stop_gst_running env w h Hh) as (tail & Htail & Hstop & Hto).
  exists tail. cbv zeta. split; [done|]. split; [done|]. split; [|done].
  unfold stop. by rewrite bind_run, Hstop.
Qed.

(** C7.  From a state that holds a worker handle, the first [/stop] answers
    200 [stopped] and the second 400 [not running]; neither raises, and the
    manager holds no handle after the first and after the second. *)
Theorem stop_twice (env : Env) (w : world) (h : pid) :
  GST_PROCESS w = Some h →
  ∃ w1 w2,
    stop env w = (Ok (status_response 200 "stopped"), w1)
    ∧ GST_PROCESS w1 = None
    ∧ stop env w1 = (Ok (status_response 400 "not running"), w2)
    ∧ GST_PROCESS w2 = None.
Proof.
  intros Hh. destruct (stop_gst_running env w h Hh) as (tail & _ & Hstop & _).
  eexists _, _. unfold stop at 1. rewrite bind_run, Hstop.
  split; [reflexivity|]. split; [done|].
  unfold stop. rewrite bind_run, stop_gst_idle by done. done.
Qed.

(** ** Starts that cannot build *)

Lemma start_gst_build_fails env feeds composite webrtc w e :
  build_pipeline_text feeds composite webrtc = Raise e →
  start_gst env feeds composite webrtc w
  = (Ok false,
     {| GST_PROCESS := GST_PROCESS w;
        events := events w
                  ++ [Log ERROR ("Failed to build pipeline: " +:+ str_exn e);
                      Log DEBUG (env_format_exc env e)] |}).
Proof.
  intros He. step_M. rewrite He. cbn. by rewrite <- app_assoc.
Qed.

(** C4.  A selection of names of which none is in the catalogue, the empty
    selection included, makes [build_pipeline] raise the [ValueError] for
    no valid feeds; [start_gst] then returns [False], leaves [GST_PROCESS]
    as it was and adds two log records and nothing else, so no worker is
    spawned. *)
Theorem no_valid_feeds_no_spawn (env : Env) (feeds : list Feed)
    (names : list string) (webrtc : gmap string string) (w : world) :
  Forall (λ n, n ∉ catalog_names feeds) names →
  build_pipeline_text feeds (PStr <$> names) webrtc = Raise no_valid_feeds
  ∧ build_pipeline feeds (PStr <$> names) webrtc w = (Raise no_valid_feeds, w)
  ∧ start_gst env feeds (PStr <$> names) webrtc w
    = (Ok false,
       {| GST_PROCESS := GST_PROCESS w;
          events := events w
                    ++ [Log ERROR "Failed to build pipeline: No valid feeds selected for composite.";
                        Log DEBUG (env_format_exc env no_valid_feeds)] |}).
Proof.
  intros Habsent.
  assert (build_pipeline_text feeds (PStr <$> names) webrtc = Raise no_valid_feeds)
    as Hbuild by (by rewrite build_pipeline_text_names, omap_feed_map_absent).
  split; [done|]. split.
  - unfold build_pipeline, lift. rewrite bind_run, Hbuild. done.
  - by rewrite (start_gst_build_fails _ _ _ _ _ _ Hbuild).
Qed.

(** ** Updates *)

(** What the stop at the head of [update] leaves behind. *)
Lemma stop_gst_effect env w :
  ∃ b evs,
    stop_gst env w = (Ok b, {| GST_PROCESS := None; events := events w ++ evs |})
    ∧ Forall (λ e, ¬ is_spawn_attempt e) evs
    ∧ ∀ h, GST_PROCESS w = Some h →
        Terminate h (env_terminate env (events w) h) ∈ evs.
Proof.
  destruct (GST_PROCESS w) as [h|] eqn:Hh.
  - destruct (stop_gst_running env w h Hh) as (tail & Htail & Hstop & _).
    exists true, (Terminate h (env_terminate env (events w) h) :: tail).
    split; [done|]. split.
    + constructor; [by intros []|].
      eapply Forall_impl; [exact Htail|]. intros [] Hq Hs; cbn in *; done.
    + intros h' [= <-]. by left.
  - exists false, [Log WARNING "No GStreamer process to stop."].
    split; [by apply stop_gst_idle|]. split; [|done].
    constructor; [by intros []|constructor].
Qed.

Lemma invalid_composite_guard d :
  dict_find d "composite" = None
  ∨ isinstance_list (default PNone (dict_find d "composite")) = false
  ∨ default PNone (dict_find d "composite") = PList [] →
  negb (truthy (default PNone (dict_find d "composite")))
  || negb (isinstance_list (default PNone (dict_find d "composite"))) = true.
Proof.
  intros [->|[->| ->]]; [done| |done]. by rewrite orb_true_r.
Qed.

Lemma valid_composite_guard (l : list pyval) :
  l ≠ [] → negb (truthy (PList l)) || negb (isinstance_list (PList l)) = false.
Proof. by destruct l. Qed.

(** C8.  For a body that is a JSON object whose [composite] is missing, is
    not a list or is the empty list, and a configuration that loads,
    [/update] answers 400 [invalid composite]; by then the stop has run, so
    the manager holds no handle and a worker that was held has been told to
    terminate; no spawn was attempted. *)
Theorem update_invalid_composite (env : Env) (w : world)
    (d : list (string * pyval)) (cfg : Config) :
  env_load_config env (events w) = Ok cfg →
  dict_find d "composite" = None
  ∨ isinstance_list (default PNone (dict_find d "composite")) = false
  ∨ default PNone (dict_find d "composite") = PList [] →
  ∃ evs,
    update env (PDict d) w
    = (Ok (status_response 400 "invalid composite"),
       {| GST_PROCESS := None; events := events w ++ evs |})
    ∧ Forall (λ e, ¬ is_spawn_attempt e) evs
    ∧ ∀ h, GST_PROCESS w = Some h →
        Terminate h (env_terminate env (events w) h) ∈ evs.
Proof.
  intros Hcfg Hbad. apply invalid_composite_guard in Hbad.
  destruct (stop_gst_effect env w) as (b & evs & Hstop & Hquiet & Hterm).
  exists (evs ++ [Log ERROR "Invalid composite list provided in update request."]).
  split; [|split].
  - unfold update. rewrite bind_run. cbn [py_get lift].
    rewrite bind_run. unfold load_config. rewrite Hcfg.
    rewrite bind_run, Hstop, Hbad. step_M. by rewrite app_assoc.
  - apply Forall_app. split; [done|]. constructor; [by intros []|constructor].
  - intros h Hh. apply elem_of_app. left. by apply Hterm.
Qed.

Lemma select_urls_no_names fm (l : list pyval) :
  (∀ s, PStr s ∈ l → fm !! s = None) →
  select_urls fm l = Ok [] ∨ ∃ e, select_urls fm l = Raise e.
Proof.
  induction l as [|key l IH]; intros Hl; [by left|].
  assert (select_urls fm l = Ok [] ∨ ∃ e, select_urls fm l = Raise e) as Hrest.
  { apply IH. intros s Hs. apply Hl. by right. }
  destruct key as [| | | |s| |]; cbn [select_urls dict_contains mbind result_bind];
    try done; try (right; by eexists).
  rewrite (Hl s) by (by left).
  rewrite bool_decide_false by (by intros [? ?]). done.
Qed.

Lemma build_pipeline_text_no_names feeds (l : list pyval) webrtc :
  (∀ s, PStr s ∈ l → s ∉ catalog_names feeds) →
  ∃ e, build_pipeline_text feeds l webrtc = Raise e.
Proof.
  intros Hl. unfold build_pipeline_text.
  destruct (select_urls_no_names (feed_map feeds) l) as [->|[e ->]].
  - intros s Hs. by apply feed_map_None, Hl.
  - by eexists.
  - by eexists.
Qed.

(** C9, as the code has it.  For a body whose [composite] is a non-empty
    list none of whose entries names a feed of the catalogue, and a
    configuration that loads, [/update] answers 500 [failed to update]:
    [build_pipeline] raises, for a list of names the [ValueError] for no
    valid feeds, [start_gst] returns [False], and the handler maps every
    failed start to 500.  The stop has run, the manager holds no handle and
    no spawn was attempted. *)
Theorem update_no_valid_feeds_is_500 (env : Env) (w : world)
    (d : list (string * pyval)) (cfg : Config) (l : list pyval) :
  env_load_config env (events w) = Ok cfg →
  dict_find d "composite" = Some (PList l) →
  l ≠ [] →
  (∀ s, PStr s ∈ l → s ∉ catalog_names (cfg_feeds cfg)) →
  ∃ evs,
    update env (PDict d) w
    = (Ok (status_response 500 "failed to update"),
       {| GST_PROCESS := None; events := events w ++ evs |})
    ∧ Forall (λ e, ¬ is_spawn_attempt e) evs
    ∧ ∀ names, l = PStr <$> names →
        build_pipeline_text (cfg_feeds cfg) l (cfg_webrtc cfg)
        = Raise no_valid_feeds.
Proof.
  intros Hcfg Hd Hne Hl.
  destruct (stop_gst_effect env w) as (b & evs & Hstop & Hquiet & _).
  destruct (build_pipeline_text_no_names (cfg_feeds cfg) l (cfg_webrtc cfg) Hl)
    as [e He].
  exists (evs ++ [Log ERROR ("Failed to build pipeline: " +:+ str_exn e);
                  Log DEBUG (env_format_exc env e)]).
  split; [|split].
  - unfold update. rewrite bind_run. cbn [py_get lift]. rewrite Hd.
    rewrite bind_run. unfold load_config. rewrite Hcfg.
    rewrite bind_run, Hstop.
    change (default PNone (Some (PList l))) with (PList l).
    rewrite (valid_composite_guard l Hne). cbn [list_items].
    rewrite bind_run, (start_gst_build_fails _ _ _ _ _ _ He).
    cbn [GST_PROCESS events]. by rewrite app_assoc.
  - apply Forall_app. split; [done|]. by repeat constructor; intros [].
  - intros names ->. rewrite build_pipeline_text_names, omap_feed_map_absent; [done|].
    apply Forall_forall. intros n Hn. apply Hl. by apply list_elem_of_fmap_2.
Qed.

(** C9, as the claim has it, fails: with the catalogue [cam1, cam2, cam3]
    the body [{"composite": ["cam9"]}] makes [build_pipeline] raise the
    [ValueError] for no valid feeds, and [/update] answers 500, which is
    not in the 4xx range. *)
Lemma update_no_valid_feeds_not_4xx :
  build_pipeline_text (cfg_feeds config3) [PStr "cam9"] (cfg_webrtc config3)
  = Raise no_valid_feeds
  ∧ (update env_ok body_cam9 initial).1
    = Ok (status_response 500 "failed to update")
  ∧ ¬ is_4xx (status_response 500 "failed to update").
Proof.
  split; [by vm_compute|]. split; [by vm_compute|].
  unfold is_4xx. cbn. lia.
Qed.

(** ** The statements at concrete inputs *)

Lemma pipeline_layout_and_order_witness :
  retained catalog3 ["cam1"; "cam3"; "cam9"] ≠ []
  ∧ ∃ urls,
      select_urls (feed_map catalog3) (PStr <$> ["cam1"; "cam3"; "cam9"]) = Ok urls
      ∧ length urls = length (retained catalog3 ["cam1"; "cam3"; "cam9"])
      ∧ build_pipeline_text catalog3 (PStr <$> ["cam1"; "cam3"; "cam9"]) ∅
        = Ok (String.concat " " (imap source_chain urls)
              +:+ " "
              +:+ ("compositor name=mix "
                   +:+ join_all ((λ i, pad_position i ((i mod 3) * 640)
                                                      ((i / 3) * 360))
                                 <$> seq 0 (length urls))
                   +:+ encode_chain)
              +:+ " "
              +:+ webrtc_signaling ∅)
      ∧ layout_slot 0 = (0, 0)
      ∧ pad_position 0 0 0 = "sink_0::xpos=0 sink_0::ypos=0 ".
Proof.
  split; [by vm_compute|].
  apply (pipeline_layout_and_order catalog3 ["cam1"; "cam3"; "cam9"] ∅).
  by vm_compute.
Defined.

Lemma duplicates_retained_witness :
  feed_map catalog3 !! "cam1" = Some "urlA"
  ∧ "cam1" ∈ ["cam1"; "cam3"; "cam9"; "cam1"]
  ∧ ∃ chains sinks : list string,
      build_pipeline_text catalog3 (PStr <$> ["cam1"; "cam3"; "cam9"; "cam1"]) ∅
      = Ok (String.concat " " chains
            +:+ " "
            +:+ ("compositor name=mix " +:+ join_all sinks +:+ encode_chain)
            +:+ " "
            +:+ webrtc_signaling ∅)
      ∧ length chains = length (retained catalog3 ["cam1"; "cam3"; "cam9"; "cam1"])
      ∧ length sinks = length (retained catalog3 ["cam1"; "cam3"; "cam9"; "cam1"])
      ∧ let idxs := slots_of "cam1" (retained catalog3 ["cam1"; "cam3"; "cam9"; "cam1"]) 0 in
        length idxs = length (filter (λ m, m = "cam1") ["cam1"; "cam3"; "cam9"; "cam1"])
        ∧ StronglySorted lt idxs
        ∧ (∀ i, i ∈ idxs
                ↔ retained catalog3 ["cam1"; "cam3"; "cam9"; "cam1"] !! i = Some "cam1")
        ∧ (∀ i, i ∈ idxs →
             chains !! i
             = Some ("rtspsrc location=" +:+ "urlA" +:+
                     " latency=100 ! rtph264depay ! h264parse ! avdec_h264 ! videoconvert ! videoscale ! video/x-raw,width=640,height=360 ! queue name=q" +:+
                     pretty i)
             ∧ sinks !! i
               = Some ("sink_" +:+ pretty i +:+ "::xpos=" +:+ pretty ((i mod 3) * 640)
                       +:+ " sink_" +:+ pretty i +:+ "::ypos="
                       +:+ pretty ((i / 3) * 360) +:+ " "))
        ∧ (∀ i j, source_chain i "urlA" = source_chain j "urlA" → i = j).
Proof.
  split; [by vm_compute|]. split; [by left|].
  apply (duplicates_retained catalog3 ["cam1"; "cam3"; "cam9"; "cam1"] ∅
           "cam1" "urlA"); [by vm_compute|by left].
Defined.

Lemma no_valid_feeds_no_spawn_witness :
  Forall (λ n, n ∉ catalog_names catalog3) ["cam8"; "cam9"]
  ∧ build_pipeline_text catalog3 (PStr <$> ["cam8"; "cam9"]) ∅ = Raise no_valid_feeds
  ∧ build_pipeline catalog3 (PStr <$> ["cam8"; "cam9"]) ∅ initial
    = (Raise no_valid_feeds, initial)
  ∧ start_gst env_ok catalog3 (PStr <$> ["cam8"; "cam9"]) ∅ initial
    = (Ok false,
       {| GST_PROCESS := GST_PROCESS initial;
          events := events initial
                    ++ [Log ERROR "Failed to build pipeline: No valid feeds selected for composite.";
                        Log DEBUG (env_format_exc env_ok no_valid_feeds)] |}).
Proof.
  assert (Forall (λ n, n ∉ catalog_names catalog3) ["cam8"; "cam9"]) as Habsent
    by (apply (bool_decide_unpack _); vm_compute; exact I).
  split; [exact Habsent|].
  exact (no_valid_feeds_no_spawn env_ok catalog3 ["cam8"; "cam9"] ∅ initial Habsent).
Defined.

Lemma start_while_running_is_noop_witness :
  GST_PROCESS (running 7) = Some 7
  ∧ (∀ feeds composite webrtc,
       ∃ logs,
         Forall is_log logs
         ∧ start_gst env_ok feeds composite webrtc (running 7)
           = (Ok false,
              {| GST_PROCESS := Some 7; events := events (running 7) ++ logs |}))
  ∧ ∃ logs,
      Forall is_log logs
      ∧ (start env_ok (running 7)).2
        = {| GST_PROCESS := Some 7; events := events (running 7) ++ logs |}
      ∧ ∀ cfg, env_load_config env_ok (events (running 7)) = Ok cfg →
          (start env_ok (running 7)).1
          = Ok (status_response 400 "already running or error").
Proof.
  split; [reflexivity|].
  apply (start_while_running_is_noop env_ok (running 7) 7). reflexivity.
Defined.

Lemma stop_always_succeeds_witness :
  GST_PROCESS (running 7) = Some 7
  ∧ ∃ tail,
      let w' := {| GST_PROCESS := None;
                   events := events (running 7)
                             ++ Terminate 7 (env_terminate env_stuck
                                               (events (running 7)) 7)
                                :: tail |} in
      Forall is_wait_or_log tail
      ∧ stop_gst env_stuck (running 7) = (Ok true, w')
      ∧ stop env_stuck (running 7) = (Ok (status_response 200 "stopped"), w')
      ∧ ∀ e, env_terminate env_stuck (events (running 7)) 7 = Ok () →
          env_wait env_stuck (events (running 7) ++ [Terminate 7 (Ok ())]) 7 5
          = Raise e →
          tail = [Wait 7 5 (Raise e);
                  Log ERROR ("Error stopping GStreamer process: " +:+ str_exn e);
                  Log DEBUG (env_format_exc env_stuck e)].
Proof.
  split; [reflexivity|].
  apply (stop_always_succeeds env_stuck (running 7) 7). reflexivity.
Defined.

Lemma stop_twice_witness :
  GST_PROCESS (running 7) = Some 7
  ∧ ∃ w1 w2,
      stop env_stuck (running 7) = (Ok (status_response 200 "stopped"), w1)
      ∧ GST_PROCESS w1 = None
      ∧ stop env_stuck w1 = (Ok (status_response 400 "not running"), w2)
      ∧ GST_PROCESS w2 = None.
Proof.
  split; [reflexivity|].
  apply (stop_twice env_stuck (running 7) 7). reflexivity.
Defined.

Lemma update_invalid_composite_witness :
  env_load_config env_ok (events (running 7)) = Ok config3
  ∧ (dict_find [("composite", PList [])] "composite" = None
     ∨ isinstance_list (default PNone (dict_find [("composite", PList [])] "composite"))
       = false
     ∨ default PNone (dict_find [("composite", PList [])] "composite") = PList [])
  ∧ ∃ evs,
      update env_ok (PDict [("composite", PList [])]) (running 7)
      = (Ok (status_response 400 "invalid composite"),
         {| GST_PROCESS := None; events := events (running 7) ++ evs |})
      ∧ Forall (λ e, ¬ is_spawn_attempt e) evs
      ∧ ∀ h, GST_PROCESS (running 7) = Some h →
          Terminate h (env_terminate env_ok (events (running 7)) h) ∈ evs.
Proof.
  split; [reflexivity|]. split; [right; right; reflexivity|].
  apply (update_invalid_composite env_ok (running 7) [("composite", PList [])] config3);
    [reflexivity|right; right; reflexivity].
Defined.

Lemma update_no_valid_feeds_is_500_witness :
  env_load_config env_ok (events (running 7)) = Ok config3
  ∧ dict_find [("composite", PList [PStr "cam9"])] "composite"
    = Some (PList [PStr "cam9"])
  ∧ [PStr "cam9"] ≠ []
  ∧ (∀ s, PStr s ∈ [PStr "cam9"] → s ∉ catalog_names (cfg_feeds config3))
  ∧ ∃ evs,
      update env_ok (PDict [("composite", PList [PStr "cam9"])]) (running 7)
      = (Ok (status_response 500 "failed to update"),
         {| GST_PROCESS := None; events := events (running 7) ++ evs |})
      ∧ Forall (λ e, ¬ is_spawn_attempt e) evs
      ∧ ∀ names, [PStr "cam9"] = PStr <$> names →
          build_pipeline_text (cfg_feeds config3) [PStr "cam9"] (cfg_webrtc config3)
          = Raise no_valid_feeds.
Proof.
  assert (∀ s, PStr s ∈ [PStr "cam9"] → s ∉ catalog_names (cfg_feeds config3))
    as Habsent.
  { intros s Hs. apply list_elem_of_singleton in Hs. injection Hs as ->.
    apply (bool_decide_unpack _). vm_compute. exact I. }
  split; [reflexivity|]. split; [reflexivity|]. split; [discriminate|].
  split; [exact Habsent|].
  apply (update_no_valid_feeds_is_500 env_ok (running 7)
           [("composite", PList [PStr "cam9"])] config3 [PStr "cam9"]);
    [reflexivity|reflexivity|discriminate|exact Habsent].
Defined.

(** * Further properties of the code *)

(** ** The catalogue and the selection *)

(** X1.  When several feeds of the catalogue carry the same name, the name
    resolves to the address of the last of them; a name no feed carries
    does not resolve. *)
Theorem feed_map_last_wins (feeds : list Feed) (n : string) :
  feed_map feeds !! n = url <$> last (filter (λ f, name f = n) feeds).
Proof.
  induction feeds as [|f feeds IH] using rev_ind.
  - by rewrite feed_map_nil, lookup_empty.
  - rewrite feed_map_snoc, lookup_insert, filter_app, filter_cons, filter_nil.
    destruct (decide (name f = n)) as [Hf|Hf].
    + by rewrite last_snoc.
    + by rewrite app_nil_r.
Qed.

(** X2.  An entry of the selection that is a list or a dict makes
    [build_pipeline] raise [TypeError: unhashable type], named after the
    first such entry, whatever names stand before or after it. *)
Theorem unhashable_entry_raises (feeds : list Feed) (webrtc : gmap string string)
    (before after : list pyval) (key : pyval) :
  Forall (λ k, hashable k = true) before →
  hashable key = false →
  build_pipeline_text feeds (before ++ key :: after) webrtc
  = Raise (TypeError ("unhashable type: '" +:+ type_name key +:+ "'")).
Proof.
  intros Hbefore Hkey. unfold build_pipeline_text.
  assert (select_urls (feed_map feeds) (before ++ key :: after)
          = Raise (TypeError ("unhashable type: '" +:+ type_name key +:+ "'")))
    as ->; [|done].
  induction Hbefore as [|k before Hk _ IH].
  - destruct key; try discriminate Hkey; done.
  - cbn [app select_urls]. rewrite IH.
    destruct k as [| | | |s| |]; try discriminate Hk; try done.
    cbn [dict_contains dict_getitem mbind result_bind].
    destruct (feed_map feeds !! s) as [u|] eqn:Hs.
    + rewrite bool_decide_true by eauto. done.
    + rewrite bool_decide_false by (by intros [? ?]). done.
Qed.

(** ** The layout *)

(** X4.  The position written for sink [i] is the corner of cell [i] of the
    grid; the cells of two different sinks never overlap, every cell lies
    in the three columns of a width of 1920, and the first six fill a
    canvas of 1920 by 720. *)
Theorem layout_cells (i j : nat) :
  sink_props i = pad_position i (layout_slot i).1 (layout_slot i).2
  ∧ (layout_slot i).1 + 640 ≤ 1920
  ∧ (i < 6 → (layout_slot i).2 + 360 ≤ 720)
  ∧ (i ≠ j → cells_disjoint (layout_slot i) (layout_slot j)).
Proof.
  split; [reflexivity|].
  unfold cells_disjoint, layout_slot. cbn [fst snd].
  pose proof (Nat.div_mod_eq i 3) as Hi.
  pose proof (Nat.div_mod_eq j 3) as Hj.
  pose proof (Nat.mod_upper_bound i 3) as Hmi.
  pose proof (Nat.mod_upper_bound j 3) as Hmj.
  generalize dependent (i mod 3). generalize dependent (i / 3).
  generalize dependent (j mod 3). generalize dependent (j / 3).
  intros qj rj Hj Hmj qi ri Hi Hmi. lia.
Qed.

(** ** The transport setting *)

(** X5.  Every pipeline text that [build_pipeline] returns ends with the
    [stun-server] property of [sendrecv], set to the [stun_server] of the
    settings, or to [stun:stun.l.google.com:19302] when the settings have
    none. *)
Theorem pipeline_ends_with_stun (feeds : list Feed) (composite : list pyval)
    (webrtc : gmap string string) (pipeline : string) :
  build_pipeline_text feeds composite webrtc = Ok pipeline →
  ∃ front,
    pipeline
    = front +:+ " sendrecv.stun-server="
      +:+ match webrtc !! "stun_server" with
          | Some stun => stun
          | None => "stun:stun.l.google.com:19302"
          end.
Proof.
  unfold build_pipeline_text.
  destruct (select_urls (feed_map feeds) composite) as [urls|e]; [|done].
  cbn [mbind result_bind]. destruct urls as [|u urls]; [done|].
  intros [= <-]. unfold pipeline_text, webrtc_signaling.
  exists (String.concat " " (pipeline_parts (u :: urls)) +:+ " "
          +:+ compositor (length (u :: urls))).
  rewrite !string_app_assoc. unfold default_stun.
  by destruct (webrtc !! "stun_server").
Qed.

(** ** Starting *)

Lemma start_gst_idle_cases env feeds composite webrtc w :
  GST_PROCESS w = None →
  match build_pipeline_text feeds composite webrtc with
  | Raise e =>
      start_gst env feeds composite webrtc w
      = (Ok false,
         {| GST_PROCESS := None;
            events := events w
                      ++ [Log ERROR ("Failed to build pipeline: " +:+ str_exn e);
                          Log DEBUG (env_format_exc env e)] |})
  | Ok pipeline =>
      match env_popen env (events w ++ [generated_log pipeline]) pipeline with
      | Ok h =>
          start_gst env feeds composite webrtc w
          = (Ok true,
             {| GST_PROCESS := Some h;
                events := events w
                          ++ [generated_log pipeline; Spawned pipeline h;
                              Log INFO "Started GStreamer process."] |})
      | Raise e =>
          start_gst env feeds composite webrtc w
          = (Ok false,
             {| GST_PROCESS := None;
                events := events w
                          ++ [generated_log pipeline; SpawnFailed pipeline e;
                              Log ERROR ("Failed to start GStreamer process: "
                                         +:+ str_exn e);
                              Log DEBUG (env_format_exc env e)] |})
      end
  end.
Proof.
  destruct w as [p evs]; cbn [GST_PROCESS events]; intros ->.
  destruct (build_pipeline_text feeds composite webrtc) as [pipeline|e] eqn:Hb.
  - destruct (env_popen env _ pipeline) as [h|e] eqn:Hp;
      step_M; rewrite Hb; cbn; unfold generated_log in Hp; rewrite Hp; cbn;
      by rewrite <- !app_assoc.
  - step_M. rewrite Hb. cbn. by rewrite <- !app_assoc.
Qed.

(** X6.  [start_gst] returns [True] exactly when the manager holds no
    handle, the pipeline builds, and [Popen], called with the text that was
    built, returns a process. *)
Theorem start_gst_succeeds_iff (env : Env) (feeds : list Feed)
    (composite : list pyval) (webrtc : gmap string string) (w : world) :
  (start_gst env feeds composite webrtc w).1 = Ok true
  ↔ GST_PROCESS w = None
    ∧ ∃ pipeline h,
        build_pipeline_text feeds composite webrtc = Ok pipeline
        ∧ env_popen env (events w ++ [generated_log pipeline]) pipeline = Ok h.
Proof.
  destruct (GST_PROCESS w) as [h0|] eqn:Hw.
  - destruct (start_gst_running env feeds composite webrtc w h0 Hw)
      as (logs & _ & ->).
    split; [discriminate|]. by intros [? _].
  - pose proof (start_gst_idle_cases env feeds composite webrtc w Hw) as Hcases.
    destruct (build_pipeline_text feeds composite webrtc) as [pipeline|e].
    + destruct (env_popen env _ pipeline) as [h|e] eqn:Hp; rewrite Hcases.
      * split; [|done]. intros _. split; [done|]. by exists pipeline, h.
      * split; [discriminate|]. intros [_ (p' & h & [= <-] & Hp')]. congruence.
    + rewrite Hcases. split; [discriminate|]. by intros [_ (? & ? & ? & _)].
Qed.

(** X7.  [start_gst] never raises.  When it returns [True] the handle is
    the process that a single [Popen] of the built text returned; when it
    returns [False] the handle is the one held before and no process was
    spawned. *)
Theorem start_gst_outcome (env : Env) (feeds : list Feed)
    (composite : list pyval) (webrtc : gmap string string) (w : world) :
  ∃ b evs w',
    start_gst env feeds composite webrtc w = (Ok b, w')
    ∧ events w' = events w ++ evs
    ∧ if b
      then ∃ pipeline h,
             build_pipeline_text feeds composite webrtc = Ok pipeline
             ∧ GST_PROCESS w = None
             ∧ GST_PROCESS w' = Some h
             ∧ evs = [generated_log pipeline; Spawned pipeline h;
                      Log INFO "Started GStreamer process."]
      else GST_PROCESS w' = GST_PROCESS w
           ∧ Forall (λ e, ¬ is_spawned e) evs.
Proof.
  destruct (GST_PROCESS w) as [h0|] eqn:Hw.
  - destruct (start_gst_running env feeds composite webrtc w h0 Hw)
      as (logs & Hlogs & ->).
    exists false, logs, {| GST_PROCESS := Some h0; events := events w ++ logs |}.
    split; [done|]. split; [done|]. split; [done|].
    eapply Forall_impl; [exact Hlogs|]. intros [] Hl Hs; cbn in *; done.
  - pose proof (start_gst_idle_cases env feeds composite webrtc w Hw) as Hcases.
    destruct (build_pipeline_text feeds composite webrtc) as [pipeline|e].
    + destruct (env_popen env _ pipeline) as [h|e]; rewrite Hcases.
      * eexists true, _, _. split; [done|]. split; [done|].
        by exists pipeline, h.
      * eexists false, _, _. split; [done|]. split; [done|]. split; [done|].
        by repeat constructor; intros [].
    + rewrite Hcases. eexists false, _, _. split; [done|]. split; [done|].
      split; [done|]. by repeat constructor; intros [].
Qed.

(** X8.  When the manager holds no handle, the pipeline builds and [Popen]
    raises, [start_gst] returns [False] with no handle held, and [/start]
    answers 400 [already running or error], the answer it also gives for a
    running worker. *)
Theorem spawn_failure_is_400 (env : Env) (w : world) (cfg : Config)
    (pipeline : string) (e : exn) :
  GST_PROCESS w = None →
  env_load_config env (events w) = Ok cfg →
  build_pipeline_text (cfg_feeds cfg) (cfg_composite cfg) (cfg_webrtc cfg)
  = Ok pipeline →
  env_popen env (events w ++ [generated_log pipeline]) pipeline = Raise e →
  start env w
  = (Ok (status_response 400 "already running or error"),
     {| GST_PROCESS := None;
        events := events w
                  ++ [generated_log pipeline; SpawnFailed pipeline e;
                      Log ERROR ("Failed to start GStreamer process: "
                                 +:+ str_exn e);
                      Log DEBUG (env_format_exc env e)] |}).
Proof.
  intros Hw Hcfg Hb Hp.
  pose proof (start_gst_idle_cases env (cfg_feeds cfg) (cfg_composite cfg)
                (cfg_webrtc cfg) w Hw) as Hcases.
  rewrite Hb, Hp in Hcases.
  unfold start. rewrite bind_run. unfold load_config. rewrite Hcfg.
  by rewrite bind_run, Hcases.
Qed.

(** ** Updating *)

Lemma build_pipeline_text_nil feeds webrtc :
  build_pipeline_text feeds [] webrtc = Raise no_valid_feeds.
Proof. reflexivity. Qed.

Lemma stop_gst_snd_idle env w : GST_PROCESS (stop_gst env w).2 = None.
Proof. destruct (stop_gst_effect env w) as (b & evs & -> & _). done. Qed.

(** X9.  When the body carries a list as [composite], the configuration
    loads, the pipeline builds and [Popen] returns a process, [/update]
    answers 200 with status [updated] and the [composite] list exactly as
    it was sent, names that were dropped included, and the manager holds
    the new process. *)
Theorem update_success_echoes_request (env : Env) (w : world)
    (d : list (string * pyval)) (cfg : Config) (l : list pyval)
    (pipeline : string) (h : pid) :
  env_load_config env (events w) = Ok cfg →
  dict_find d "composite" = Some (PList l) →
  build_pipeline_text (cfg_feeds cfg) l (cfg_webrtc cfg) = Ok pipeline →
  env_popen env (events (stop_gst env w).2 ++ [generated_log pipeline]) pipeline
  = Ok h →
  update env (PDict d) w
  = (Ok {| status_code := 200;
           json := PDict [("status", PStr "updated"); ("composite", PList l)] |},
     {| GST_PROCESS := Some h;
        events := events (stop_gst env w).2
                  ++ [generated_log pipeline; Spawned pipeline h;
                      Log INFO "Started GStreamer process."] |}).
Proof.
  intros Hcfg Hd Hb Hp.
  assert (l ≠ []) as Hne.
  { intros ->. by rewrite build_pipeline_text_nil in Hb. }
  pose proof (start_gst_idle_cases env (cfg_feeds cfg) l (cfg_webrtc cfg)
                (stop_gst env w).2 (stop_gst_snd_idle env w)) as Hcases.
  rewrite Hb, Hp in Hcases.
  destruct (stop_gst_effect env w) as (b & evs & Hstop & _).
  rewrite Hstop in Hcases |- *. cbn [snd] in Hcases |- *.
  unfold update. rewrite bind_run. cbn [py_get lift]. rewrite Hd.
  rewrite bind_run. unfold load_config. rewrite Hcfg.
  rewrite bind_run, Hstop.
  change (default PNone (Some (PList l))) with (PList l).
  rewrite (valid_composite_guard l Hne). cbn [list_items].
  by rewrite bind_run, Hcases.
Qed.


(** X11.  A request that fails before the manager is reached changes
    nothing: [/update] with a body that is not a JSON object raises
    [AttributeError], and [/start] and [/update] raise what [load_config]
    raises; in each case no worker is stopped or started and nothing is
    logged. *)
Theorem early_failure_changes_nothing (env : Env) (w : world) :
  (∀ data, (∀ d, data ≠ PDict d) →
     update env data w
     = (Raise (AttributeError
                 ("'" +:+ type_name data +:+ "' object has no attribute 'get'")),
        w))
  ∧ (∀ e, env_load_config env (events w) = Raise e →
       start env w = (Raise e, w)
       ∧ ∀ d, update env (PDict d) w = (Raise e, w)).
Proof.
  split.
  - intros data Hdata. unfold update. rewrite bind_run.
    destruct data; try done. by destruct (Hdata d).
  - intros e He. split.
    + unfold start. rewrite bind_run. unfold load_config. by rewrite He.
    + intros d. unfold update. rewrite bind_run. cbn [py_get lift].
      rewrite bind_run. unfold load_config. by rewrite He.
Qed.

(** ** Stopping, once more *)

(** X12.  [/stop] never raises and always leaves the manager without a
    handle; it answers 200 exactly when a handle was held and 400 exactly
    when none was, and it never attempts a spawn. *)
Theorem stop_always_idle (env : Env) (w : world) :
  ∃ resp evs,
    stop env w = (Ok resp, {| GST_PROCESS := None; events := events w ++ evs |})
    ∧ Forall (λ e, ¬ is_spawn_attempt e) evs
    ∧ (status_code resp = 200 ↔ is_Some (GST_PROCESS w))
    ∧ (status_code resp = 400 ↔ GST_PROCESS w = None).
Proof.
  destruct (GST_PROCESS w) as [h|] eqn:Hw.
  - destruct (stop_gst_running env w h Hw) as (tail & Htail & Hstop & _).
    eexists _, _. unfold stop. rewrite bind_run, Hstop.
    split; [done|]. split.
    + constructor; [by intros []|].
      eapply Forall_impl; [exact Htail|]. intros [] Hq Hs; cbn in *; done.
    + cbn. split; [by eauto|]. split; discriminate.
  - eexists _, _. unfold stop. rewrite bind_run, (stop_gst_idle env w Hw).
    split; [done|]. split; [by repeat constructor; intros []|].
    cbn. split; [|done]. split; [discriminate|]. by intros [? ?].
Qed.

(** X13.  [stop_gst] waits only for a worker whose [terminate] returned:
    when [terminate] raises, the exception is logged at level ERROR with its
    traceback at DEBUG and [wait] is not called; when [terminate] and the
    wait of 5 seconds both return, the only log record is the INFO record
    of the stop.  The handle is cleared in both cases. *)
Theorem stop_gst_trace (env : Env) (w : world) (h : pid) :
  GST_PROCESS w = Some h →
  (∀ e, env_terminate env (events w) h = Raise e →
     stop_gst env w
     = (Ok true,
        {| GST_PROCESS := None;
           events := events w
                     ++ [Terminate h (Raise e);
                         Log ERROR ("Error stopping GStreamer process: "
                                    +:+ str_exn e);
                         Log DEBUG (env_format_exc env e)] |}))
  ∧ (env_terminate env (events w) h = Ok () →
     env_wait env (events w ++ [Terminate h (Ok ())]) h 5 = Ok () →
     stop_gst env w
     = (Ok true,
        {| GST_PROCESS := None;
           events := events w
                     ++ [Terminate h (Ok ()); Wait h 5 (Ok ());
                         Log INFO "Stopped GStreamer process."] |})).
Proof.
  destruct w as [p evs]; cbn [GST_PROCESS events]; intros ->. split.
  - intros e He. step_M. rewrite He. cbn. by rewrite <- !app_assoc.
  - intros Ht Hw. step_M. rewrite Ht. cbn. rewrite Hw. cbn.
    by rewrite <- !app_assoc.
Qed.

(** ** Start followed by stop, and interleaved calls *)

Lemma successful_start_shape env feeds composite webrtc w w1 :
  start_gst env feeds composite webrtc w = (Ok true, w1) →
  ∃ pipeline h,
    events w1 = events w ++ [generated_log pipeline; Spawned pipeline h;
                             Log INFO "Started GStreamer process."]
    ∧ GST_PROCESS w1 = Some h.
Proof.
  destruct (GST_PROCESS w) as [h0|] eqn:Hw.
  - destruct (start_gst_running env feeds composite webrtc w h0 Hw)
      as (logs & _ & ->). discriminate.
  - pose proof (start_gst_idle_cases env feeds composite webrtc w Hw) as Hcases.
    destruct (build_pipeline_text feeds composite webrtc) as [pipeline|e].
    + destruct (env_popen env _ pipeline) as [h|e]; rewrite Hcases;
        [|discriminate].
      intros [= <-]. by exists pipeline, h.
    + rewrite Hcases. discriminate.
Qed.

(** X14.  A stop that follows a successful start tells exactly the worker
    that the start spawned to terminate, and leaves the manager without a
    handle. *)
Theorem start_then_stop (env : Env) (feeds : list Feed)
    (composite : list pyval) (webrtc : gmap string string) (w w1 : world) :
  start_gst env feeds composite webrtc w = (Ok true, w1) →
  ∃ pipeline h tail,
    events w1 = events w ++ [generated_log pipeline; Spawned pipeline h;
                             Log INFO "Started GStreamer process."]
    ∧ GST_PROCESS w1 = Some h
    ∧ Forall is_wait_or_log tail
    ∧ stop_gst env w1
      = (Ok true,
         {| GST_PROCESS := None;
            events := events w1
                      ++ Terminate h (env_terminate env (events w1) h) :: tail |}).
Proof.
  intros Hstart.
  destruct (successful_start_shape env feeds composite webrtc w w1 Hstart)
    as (pipeline & h & Hev & Hh).
  destruct (stop_gst_running env w1 h Hh) as (tail & Htail & Hstop & _).
  by exists pipeline, h, tail.
Qed.

Lemma do_call_consistent env c w : consistent w → consistent (do_call env c w).
Proof.
  destruct c; cbn [do_call];
    auto using start_gst_consistent, stop_gst_consistent.
Qed.

(** X15.  However the critical sections of [start_gst] and [stop_gst] of
    concurrent requests are ordered by the lock, and whatever their
    arguments and the answers of the outside, the workers spawned and not
    yet told to terminate are exactly the handle the manager holds, and
    there were never two of them. *)
Theorem interleaved_calls_keep_one_worker (env : Env) (calls : list call) :
  let w := run_calls env calls initial in
  unreleased (events w) = option_list (GST_PROCESS w)
  ∧ at_most_one_worker (events w).
Proof.
  intros w. assert (consistent w) as Hw; [|exact Hw].
  subst w. generalize tracked_nil. change (tracked [] []) with (consistent initial).
  generalize initial. induction calls as [|c calls IH]; intros w Hw; [done|].
  cbn [run_calls foldl]. apply IH. by apply do_call_consistent.
Qed.

(** ** The signalling placeholder *)

(** X16.  An offer whose body is a JSON object without [sdp], or with an
    [sdp] that is [null], empty or zero, is answered 400 [No SDP offer
    provided], and no file is opened or written. *)
Theorem offer_without_sdp (open_w : gmap string string → string → result unit)
    (encode : string → result unit)
    (d : list (string * pyval)) (files : gmap string string) :
  truthy (default PNone (dict_find d "sdp")) = false →
  offer open_w encode (PDict d) files
  = (Ok {| status_code := 400;
           json := PDict [("error", PStr "No SDP offer provided")] |},
     files).
Proof. intros Hsdp. unfold offer. cbn [py_get]. by rewrite Hsdp. Qed.

(** X17.  An offer with a non-empty string as [sdp], when the file opens
    and its encoding takes the text, leaves exactly that string in
    [client_offer.sdp], whatever the file held before, touches no other
    file, and is answered 200 with type [answer] and the fixed placeholder
    text, the same for every offer. *)
Theorem offer_stores_and_answers
    (open_w : gmap string string → string → result unit)
    (encode : string → result unit)
    (d : list (string * pyval)) (files : gmap string string) (text : string) :
  dict_find d "sdp" = Some (PStr text) →
  text ≠ "" →
  open_w files offer_file = Ok () →
  encode text = Ok () →
  ∃ files',
    offer open_w encode (PDict d) files
    = (Ok {| status_code := 200;
             json := PDict [("sdp", PStr sdp_answer); ("type", PStr "answer")] |},
       files')
    ∧ files' !! "client_offer.sdp" = Some text
    ∧ ∀ other, other ≠ "client_offer.sdp" → files' !! other = files !! other.
Proof.
  intros Hd Htext Hopen Henc. eexists. unfold offer. cbn [py_get]. rewrite Hd.
  change (default PNone (Some (PStr text))) with (PStr text). cbn [truthy].
  apply String.eqb_neq in Htext. rewrite Htext. cbn [negb]. rewrite Hopen, Henc.
  split; [reflexivity|]. split.
  - apply lookup_insert_eq.
  - intros other Hother. unfold offer_file.
    by rewrite !lookup_insert_ne.
Qed.

(** X19.  An offer with a non-empty string as [sdp] that the encoding of
    the file refuses raises the encoding error from the write, after the
    file was opened: [client_offer.sdp] is left empty, no other file is
    touched and no answer is returned. *)
Theorem offer_unencodable_sdp
    (open_w : gmap string string → string → result unit)
    (encode : string → result unit)
    (d : list (string * pyval)) (files : gmap string string) (text : string)
    (e : exn) :
  dict_find d "sdp" = Some (PStr text) →
  text ≠ "" →
  open_w files offer_file = Ok () →
  encode text = Raise e →
  offer open_w encode (PDict d) files
  = (Raise e, <["client_offer.sdp" := ""]> files).
Proof.
  intros Hd Htext Hopen Henc. unfold offer. cbn [py_get]. rewrite Hd.
  change (default PNone (Some (PStr text))) with (PStr text). cbn [truthy].
  apply String.eqb_neq in Htext. rewrite Htext. cbn [negb].
  by rewrite Hopen, Henc.
Qed.

(** X18.  An offer whose [sdp] is true but not a string (a number, a list,
    an object) raises [TypeError] from the write, after the file was opened:
    [client_offer.sdp] is left empty and no answer is returned. *)
Theorem offer_non_string_sdp
    (open_w : gmap string string → string → result unit)
    (encode : string → result unit)
    (d : list (string * pyval)) (files : gmap string string) (v : pyval) :
  dict_find d "sdp" = Some v →
  truthy v = true →
  (∀ text, v ≠ PStr text) →
  open_w files offer_file = Ok () →
  offer open_w encode (PDict d) files
  = (Raise (TypeError ("write() argument must be str, not " +:+ type_name v)),
     <["client_offer.sdp" := ""]> files).
Proof.
  intros Hd Hv Hstr Hopen. unfold offer. cbn [py_get]. rewrite Hd.
  change (default PNone (Some v)) with v. rewrite Hv. cbn [negb]. rewrite Hopen.
  destruct v; try done. by destruct (Hstr s).
Qed.

(** ** The further statements at concrete inputs *)

Lemma unhashable_entry_raises_witness :
  Forall (λ k, hashable k = true) [PStr "cam1"; PInt 3]
  ∧ hashable (PList [PStr "cam2"]) = false
  ∧ build_pipeline_text catalog3
      ([PStr "cam1"; PInt 3] ++ PList [PStr "cam2"] :: [PStr "cam3"]) ∅
    = Raise (TypeError ("unhashable type: '"
                        +:+ type_name (PList [PStr "cam2"]) +:+ "'")).
Proof.
  assert (Forall (λ k, hashable k = true) [PStr "cam1"; PInt 3]) as Hbefore
    by (repeat constructor).
  split; [exact Hbefore|]. split; [reflexivity|].
  exact (unhashable_entry_raises catalog3 ∅ [PStr "cam1"; PInt 3]
           [PStr "cam3"] (PList [PStr "cam2"]) Hbefore eq_refl).
Defined.

Lemma pipeline_ends_with_stun_witness :
  build_pipeline_text catalog3 [PStr "cam1"] ∅ = Ok (pipeline_text ["urlA"] ∅)
  ∧ ∃ front,
      pipeline_text ["urlA"] ∅
      = front +:+ " sendrecv.stun-server="
        +:+ match (∅ : gmap string string) !! "stun_server" with
            | Some stun => stun
            | None => "stun:stun.l.google.com:19302"
            end.
Proof.
  assert (build_pipeline_text catalog3 [PStr "cam1"] ∅
          = Ok (pipeline_text ["urlA"] ∅)) as Hb by (vm_compute; reflexivity).
  split; [exact Hb|].
  exact (pipeline_ends_with_stun catalog3 [PStr "cam1"] ∅ _ Hb).
Defined.

Lemma spawn_failure_is_400_witness :
  GST_PROCESS initial = None
  ∧ env_load_config env_no_spawn (events initial) = Ok config3
  ∧ build_pipeline_text (cfg_feeds config3) (cfg_composite config3)
      (cfg_webrtc config3)
    = Ok (pipeline_text ["urlA"; "urlC"] ∅)
  ∧ env_popen env_no_spawn
      (events initial ++ [generated_log (pipeline_text ["urlA"; "urlC"] ∅)])
      (pipeline_text ["urlA"; "urlC"] ∅)
    = Raise (OSError "[Errno 12] Cannot allocate memory")
  ∧ start env_no_spawn initial
    = (Ok (status_response 400 "already running or error"),
       {| GST_PROCESS := None;
          events := events initial
                    ++ [generated_log (pipeline_text ["urlA"; "urlC"] ∅);
                        SpawnFailed (pipeline_text ["urlA"; "urlC"] ∅)
                          (OSError "[Errno 12] Cannot allocate memory");
                        Log ERROR ("Failed to start GStreamer process: "
                                   +:+ str_exn (OSError "[Errno 12] Cannot allocate memory"));
                        Log DEBUG (env_format_exc env_no_spawn
                                     (OSError "[Errno 12] Cannot allocate memory"))] |}).
Proof.
  assert (build_pipeline_text (cfg_feeds config3) (cfg_composite config3)
            (cfg_webrtc config3)
          = Ok (pipeline_text ["urlA"; "urlC"] ∅)) as Hb
    by (vm_compute; reflexivity).
  split; [reflexivity|]. split; [reflexivity|]. split; [exact Hb|].
  split; [reflexivity|].
  exact (spawn_failure_is_400 env_no_spawn initial config3 _ _
           eq_refl eq_refl Hb eq_refl).
Defined.

Lemma update_success_echoes_request_witness :
  env_load_config env_ok (events (running 7)) = Ok config3
  ∧ dict_find [("composite", PList [PStr "cam1"; PStr "cam9"])] "composite"
    = Some (PList [PStr "cam1"; PStr "cam9"])
  ∧ build_pipeline_text (cfg_feeds config3) [PStr "cam1"; PStr "cam9"]
      (cfg_webrtc config3)
    = Ok (pipeline_text ["urlA"] ∅)
  ∧ env_popen env_ok
      (events (stop_gst env_ok (running 7)).2
       ++ [generated_log (pipeline_text ["urlA"] ∅)])
      (pipeline_text ["urlA"] ∅)
    = Ok 5
  ∧ update env_ok (PDict [("composite", PList [PStr "cam1"; PStr "cam9"])])
      (running 7)
    = (Ok {| status_code := 200;
             json := PDict [("status", PStr "updated");
                            ("composite", PList [PStr "cam1"; PStr "cam9"])] |},
       {| GST_PROCESS := Some 5;
          events := events (stop_gst env_ok (running 7)).2
                    ++ [generated_log (pipeline_text ["urlA"] ∅);
                        Spawned (pipeline_text ["urlA"] ∅) 5;
                        Log INFO "Started GStreamer process."] |}).
Proof.
  assert (build_pipeline_text (cfg_feeds config3) [PStr "cam1"; PStr "cam9"]
            (cfg_webrtc config3)
          = Ok (pipeline_text ["urlA"] ∅)) as Hb by (vm_compute; reflexivity).
  split; [reflexivity|]. split; [reflexivity|]. split; [exact Hb|].
  split; [reflexivity|].
  exact (update_success_echoes_request env_ok (running 7)
           [("composite", PList [PStr "cam1"; PStr "cam9"])] config3
           [PStr "cam1"; PStr "cam9"] _ 5 eq_refl eq_refl Hb eq_refl).
Defined.


Lemma stop_gst_trace_witness :
  GST_PROCESS (running 7) = Some 7
  ∧ (∀ e, env_terminate env_denied (events (running 7)) 7 = Raise e →
       stop_gst env_denied (running 7)
       = (Ok true,
          {| GST_PROCESS := None;
             events := events (running 7)
                       ++ [Terminate 7 (Raise e);
                           Log ERROR ("Error stopping GStreamer process: "
                                      +:+ str_exn e);
                           Log DEBUG (env_format_exc env_denied e)] |}))
  ∧ (env_terminate env_denied (events (running 7)) 7 = Ok () →
     env_wait env_denied (events (running 7) ++ [Terminate 7 (Ok ())]) 7 5
     = Ok () →
     stop_gst env_denied (running 7)
     = (Ok true,
        {| GST_PROCESS := None;
           events := events (running 7)
                     ++ [Terminate 7 (Ok ()); Wait 7 5 (Ok ());
                         Log INFO "Stopped GStreamer process."] |})).
Proof.
  split; [reflexivity|].
  exact (stop_gst_trace env_denied (running 7) 7 eq_refl).
Defined.

Lemma start_then_stop_witness :
  start_gst env_ok catalog3 [PStr "cam1"] ∅ initial
  = (Ok true,
     {| GST_PROCESS := Some 1;
        events := [generated_log (pipeline_text ["urlA"] ∅);
                   Spawned (pipeline_text ["urlA"] ∅) 1;
                   Log INFO "Started GStreamer process."] |})
  ∧ ∃ pipeline h tail,
      [generated_log (pipeline_text ["urlA"] ∅);
       Spawned (pipeline_text ["urlA"] ∅) 1;
       Log INFO "Started GStreamer process."]
      = events initial ++ [generated_log pipeline; Spawned pipeline h;
                           Log INFO "Started GStreamer process."]
      ∧ Some 1 = Some h
      ∧ Forall is_wait_or_log tail
      ∧ stop_gst env_ok
          {| GST_PROCESS := Some 1;
             events := [generated_log (pipeline_text ["urlA"] ∅);
                        Spawned (pipeline_text ["urlA"] ∅) 1;
                        Log INFO "Started GStreamer process."] |}
        = (Ok true,
           {| GST_PROCESS := None;
              events := [generated_log (pipeline_text ["urlA"] ∅);
                         Spawned (pipeline_text ["urlA"] ∅) 1;
                         Log INFO "Started GStreamer process."]
                        ++ Terminate h
                             (env_terminate env_ok
                                [generated_log (pipeline_text ["urlA"] ∅);
                                 Spawned (pipeline_text ["urlA"] ∅) 1;
                                 Log INFO "Started GStreamer process."] h)
                           :: tail |}).
Proof.
  assert (start_gst env_ok catalog3 [PStr "cam1"] ∅ initial
          = (Ok true,
             {| GST_PROCESS := Some 1;
                events := [generated_log (pipeline_text ["urlA"] ∅);
                           Spawned (pipeline_text ["urlA"] ∅) 1;
                           Log INFO "Started GStreamer process."] |})) as Hstart
    by (vm_compute; reflexivity).
  split; [exact Hstart|].
  exact (start_then_stop env_ok catalog3 [PStr "cam1"] ∅ initial _ Hstart).
Defined.

Lemma offer_without_sdp_witness :
  truthy (default PNone (dict_find [("type", PStr "offer")] "sdp")) = false
  ∧ offer open_ok encode_ok (PDict [("type", PStr "offer")]) ∅
    = (Ok {| status_code := 400;
             json := PDict [("error", PStr "No SDP offer provided")] |},
       ∅).
Proof.
  split; [reflexivity|].
  exact (offer_without_sdp open_ok encode_ok [("type", PStr "offer")] ∅ eq_refl).
Defined.

Lemma offer_stores_and_answers_witness :
  dict_find [("sdp", PStr "v=0"); ("type", PStr "offer")] "sdp" = Some (PStr "v=0")
  ∧ "v=0" ≠ ""
  ∧ open_ok {["client_offer.sdp" := "old"]} offer_file = Ok ()
  ∧ encode_ok "v=0" = Ok ()
  ∧ ∃ files',
      offer open_ok encode_ok (PDict [("sdp", PStr "v=0"); ("type", PStr "offer")])
        {["client_offer.sdp" := "old"]}
      = (Ok {| status_code := 200;
               json := PDict [("sdp", PStr sdp_answer); ("type", PStr "answer")] |},
         files')
      ∧ files' !! "client_offer.sdp" = Some "v=0"
      ∧ ∀ other, other ≠ "client_offer.sdp" →
          files' !! other
          = ({["client_offer.sdp" := "old"]} : gmap string string) !! other.
Proof.
  split; [reflexivity|]. split; [discriminate|]. split; [reflexivity|].
  split; [reflexivity|].
  apply (offer_stores_and_answers open_ok encode_ok
           [("sdp", PStr "v=0"); ("type", PStr "offer")]
           {["client_offer.sdp" := "old"]} "v=0");
    [reflexivity|discriminate|reflexivity|reflexivity].
Defined.

Lemma offer_unencodable_sdp_witness :
  dict_find [("sdp", PStr "v=0")] "sdp" = Some (PStr "v=0")
  ∧ "v=0" ≠ ""
  ∧ open_ok {["client_offer.sdp" := "old"]} offer_file = Ok ()
  ∧ encode_none "v=0" = Raise unicode_encode_error
  ∧ offer open_ok encode_none (PDict [("sdp", PStr "v=0")])
      {["client_offer.sdp" := "old"]}
    = (Raise unicode_encode_error,
       <["client_offer.sdp" := ""]> {["client_offer.sdp" := "old"]}).
Proof.
  split; [reflexivity|]. split; [discriminate|]. split; [reflexivity|].
  split; [reflexivity|].
  apply (offer_unencodable_sdp open_ok encode_none [("sdp", PStr "v=0")]
           {["client_offer.sdp" := "old"]} "v=0" unicode_encode_error);
    [reflexivity|discriminate|reflexivity|reflexivity].
Defined.

Lemma offer_non_string_sdp_witness :
  dict_find [("sdp", PInt 42)] "sdp" = Some (PInt 42)
  ∧ truthy (PInt 42) = true
  ∧ (∀ text, PInt 42 ≠ PStr text)
  ∧ open_ok {["client_offer.sdp" := "old"]} offer_file = Ok ()
  ∧ offer open_ok encode_ok (PDict [("sdp", PInt 42)])
      {["client_offer.sdp" := "old"]}
    = (Raise (TypeError ("write() argument must be str, not "
                         +:+ type_name (PInt 42))),
       <["client_offer.sdp" := ""]> {["client_offer.sdp" := "old"]}).
Proof.
  split; [reflexivity|]. split; [reflexivity|]. split; [discriminate|].
  split; [reflexivity|].
  apply (offer_non_string_sdp open_ok encode_ok [("sdp", PInt 42)]
           {["client_offer.sdp" := "old"]} (PInt 42));
    [reflexivity|reflexivity|discriminate|reflexivity].
Defined.
